(** * An in-memory item store behind five Express routes (server.js)

    The development embeds [server.js] shallowly: the module-level
    array [items] becomes an explicit state of type [list item] that
    every handler receives and returns; a handler's [res.status(..)]
    call followed by [json]/[send] becomes a [response] value.

    Conventions of the embedding.
    - JavaScript numbers that occur as item ids are integers; they are
      modelled by [Z], exact as long as they stay below 2^53.
    - A JavaScript string is a [string] whose characters stand for code
      units below 256; this covers all of ASCII and the one Latin-1
      white space character (U+00A0) that [parseInt] skips.
    - [req.body] is what [express.json()] leaves on the request: for a
      request with a JSON body the parsed object, a finite map from keys
      to JSON values, in which an absent key reads as [undefined]
      ([None]); for a request without a body [req.body] itself is
      [undefined], modelled by the body [None].
    - An exception thrown by a handler is answered by Express with
      status 500 and an error page, whose text is not modelled.
    - [Math.max(...xs)] is taken on argument lists short enough to be
      spread.
    - [console.log] calls have no effect on the store or the response
      and are left out. *)

From Stdlib Require Import ZArith Ascii String.
From stdpp Require Import base numbers option list gmap strings.

Local Open Scope Z_scope.

(** ** JavaScript values *)

(** The values [JSON.parse] can produce. *)
#[local] Unset Elimination Schemes.
Inductive jsval : Type :=
  | JNull
  | JBool (b : bool)
  | JNum (n : Z)
  | JStr (s : string)
  | JArr (l : list jsval)
  | JObj (l : list (string * jsval)).
#[local] Set Elimination Schemes.

(** [ToBoolean]: [null], [false], [0] and the empty string are falsy,
    every object and array is truthy. *)
Definition to_boolean (v : jsval) : bool :=
  match v with
  | JNull => false
  | JBool b => b
  | JNum n => negb (n =? 0)
  | JStr s => negb (String.eqb s "")
  | JArr _ => true
  | JObj _ => true
  end.

(** ToBoolean of a property read; [undefined] is falsy. *)
Definition truthy (o : option jsval) : bool :=
  match o with
  | Some v => to_boolean v
  | None => false
  end.

(** [a || b] where [a] is a property read and [b] a proper value. *)
Definition js_or (a : option jsval) (b : jsval) : jsval :=
  match a with
  | Some v => if to_boolean v then v else b
  | None => b
  end.

(** The result of [parseInt]: [NaN] or an integer. *)
Inductive number : Type :=
  | NaN
  | Int (z : Z).

#[global] Instance number_eq_dec : EqDecision number.
Proof. solve_decision. Defined.

(** ** parseInt (one argument, so the radix is undefined)

    The result is the integer that the digits denote.  JavaScript turns
    that integer into a double, which is the same number whenever it is
    below 2^53, so for every parameter of at most 15 decimal digits.
    Beyond that the double is a rounding of the integer, or Infinity for
    very long parameters; the handlers only compare the result with the
    ids of the store, which are far below 2^53. *)

Definition code (c : ascii) : Z := Z.of_N (N_of_ascii c).

(** White space and line terminators among the code units below 256. *)
Definition is_white (c : ascii) : bool :=
  let n := code c in
  ((9 <=? n) && (n <=? 13)) || (n =? 32) || (n =? 160).

Fixpoint trim_start (s : string) : string :=
  match s with
  | String c s' => if is_white c then trim_start s' else s
  | EmptyString => s
  end.

(** The value of [c] as a digit of the given radix (10 or 16). *)
Definition digit_val (radix : Z) (c : ascii) : option Z :=
  let n := code c in
  if (48 <=? n) && (n <=? 57) then Some (n - 48)
  else if (radix =? 16) && (97 <=? n) && (n <=? 102) then Some (n - 87)
  else if (radix =? 16) && (65 <=? n) && (n <=? 70) then Some (n - 55)
  else None.

(** Reads the longest prefix of digits; [acc] is [None] until a first
    digit has been read. *)
Fixpoint parse_digits (radix : Z) (s : string) (acc : option Z) : option Z :=
  match s with
  | String c s' =>
      match digit_val radix c with
      | Some d => parse_digits radix s' (Some (radix * default 0 acc + d))
      | None => acc
      end
  | EmptyString => acc
  end.

Definition strip_sign (s : string) : Z * string :=
  match s with
  | String "-"%char s' => (-1, s')
  | String "+"%char s' => (1, s')
  | _ => (1, s)
  end.

Definition strip_hex_prefix (s : string) : Z * string :=
  match s with
  | String "0"%char (String "x"%char s') => (16, s')
  | String "0"%char (String "X"%char s') => (16, s')
  | _ => (10, s)
  end.

Definition parseInt (s : string) : number :=
  let '(sign, s1) := strip_sign (trim_start s) in
  let '(radix, s2) := strip_hex_prefix s1 in
  match parse_digits radix s2 None with
  | Some m => Int (sign * m)
  | None => NaN
  end.

(** ** The store *)

Record item : Type := Item {
  id : Z;
  name : jsval;
  description : jsval;
}.

(** [let items = [...]] as evaluated when the module is loaded. *)
Definition initial_items : list item :=
  [ Item 1 (JStr "Item A") (JStr "Description for Item A");
    Item 2 (JStr "Item B") (JStr "Description for Item B");
    Item 3 (JStr "Item C") (JStr "Description for Item C") ].

(** [Math.max(x, ...xs)] on at least one argument. *)
Definition Math_max (x : Z) (xs : list Z) : Z := foldl Z.max x xs.

Definition generateId (items : list item) : Z :=
  let maxId :=
    match id <$> items with
    | x :: xs => Math_max x xs
    | [] => 0
    end in
  maxId + 1.

(** [i.id === n]: never true when [n] is [NaN]. *)
Definition strict_eq (x : Z) (n : number) : Prop := n = Int x.

#[global] Instance strict_eq_dec x n : Decision (strict_eq x n).
Proof. unfold strict_eq. apply _. Defined.

(** [items.find(i => i.id === n)]; [None] is [undefined]. *)
Definition find (items : list item) (n : number) : option item :=
  snd <$> list_find (λ i, strict_eq (id i) n) items.

(** [items.findIndex(i => i.id === n)]; [None] is [-1]. *)
Definition findIndex (items : list item) (n : number) : option nat :=
  fst <$> list_find (λ i, strict_eq (id i) n) items.

(** ** Requests and responses *)

Inductive payload : Type :=
  | Json_items (l : list item)
  | Json_item (i : item)
  | Text (s : string)
  | Empty
  | Error_page.

Record response : Type := Response {
  status : Z;
  sent : payload;
}.

(** [req.body.name] and [req.body.description]. *)
Definition body_name (body : gmap string jsval) : option jsval := body !! "name"%string.
Definition body_description (body : gmap string jsval) : option jsval :=
  body !! "description"%string.

(** ** The five handlers *)

(** [app.get('/api/items')] *)
Definition get_items (items : list item) : list item * response :=
  (items, Response 200 (Json_items items)).

(** [app.get('/api/items/:id')] *)
Definition get_item (items : list item) (param : string)
  : list item * response :=
  let n := parseInt param in
  match find items n with
  | Some i => (items, Response 200 (Json_item i))
  | None => (items, Response 404 (Text "Item not found"))
  end.

(** [app.post('/api/items')].  The first thing the handler does is to
    read [req.body.name]; on a request without body that read throws. *)
Definition post_item (items : list item)
    (req_body : option (gmap string jsval)) : list item * response :=
  match req_body with
  | Some body =>
      match body_name body with
      | Some v =>
          if to_boolean v then
            let newItem :=
              Item (generateId items) v
                   (js_or (body_description body)
                          (JStr "No description provided")) in
            (items ++ [newItem], Response 201 (Json_item newItem))
          else
            (items, Response 400 (Text "Name is required to create an item."))
      | None =>
          (items, Response 400 (Text "Name is required to create an item."))
      end
  | None => (items, Response 500 Error_page)
  end.

(** [app.put('/api/items/:id')].  The index returned by [findIndex] is
    read back with [items[itemIndex]]; were that read [undefined], the
    property access on it would throw and Express would answer 500.
    [req.body.name] is read only once the item has been found; on a
    request without body that read throws, before [items] is assigned. *)
Definition put_item (items : list item) (param : string)
    (req_body : option (gmap string jsval)) : list item * response :=
  let n := parseInt param in
  match findIndex items n with
  | Some itemIndex =>
      match items !! itemIndex with
      | Some old =>
          match req_body with
          | Some body =>
              let updated :=
                Item (id old)
                     (js_or (body_name body) (name old))
                     (js_or (body_description body) (description old)) in
              (<[itemIndex := updated]> items,
               Response 200 (Json_item updated))
          | None => (items, Response 500 Error_page)
          end
      | None => (items, Response 500 Error_page)
      end
  | None => (items, Response 404 (Text "Item not found"))
  end.

(** [app.delete('/api/items/:id')] *)
Definition delete_item (items : list item) (param : string)
  : list item * response :=
  let n := parseInt param in
  let initialLength := length items in
  let items' := filter (λ i, ¬ strict_eq (id i) n) items in
  if decide (length items' < initialLength)%nat
  then (items', Response 204 Empty)
  else (items', Response 404 (Text "Item not found")).

(** ** Request sequences *)

(** One request to one of the five routes, with its path parameter and
    its body ([None] when the request carries none) where the route has
    them. *)
Inductive request : Type :=
  | GetAll
  | GetOne (param : string)
  | Post (body : option (gmap string jsval))
  | Put (param : string) (body : option (gmap string jsval))
  | Delete (param : string).

Definition handle (items : list item) (r : request) : list item * response :=
  match r with
  | GetAll => get_items items
  | GetOne param => get_item items param
  | Post body => post_item items body
  | Put param body => put_item items param body
  | Delete param => delete_item items param
  end.

(** The store after a sequence of requests, handled one at a time. *)
Definition run (items : list item) (rs : list request) : list item :=
  foldl (λ s r, (handle s r).1) items rs.

(** ** Vocabulary of the specification *)

Definition ids (items : list item) : list Z := id <$> items.

(** No item has the id [n]; in particular when [n] is [NaN]. *)
Definition absent (items : list item) (n : number) : Prop :=
  ∀ k, n = Int k → k ∉ ids items.

(** [m] is the largest of [xs]. *)
Definition is_max (xs : list Z) (m : Z) : Prop :=
  m ∈ xs ∧ ∀ y, y ∈ xs → y ≤ m.

(** "[1 + max(id over all current items)], or [1] if the store is empty". *)
Definition next_id (xs : list Z) (n : Z) : Prop :=
  (xs = [] ∧ n = 1) ∨ (∃ m, is_max xs m ∧ n = 1 + m).

Definition is_digit (c : ascii) : bool := (48 <=? code c) && (code c <=? 57).

Fixpoint all_digits (s : string) : bool :=
  match s with
  | String c s' => is_digit c && all_digits s'
  | EmptyString => true
  end.

(** A numeric path parameter: one or more decimal digits, nothing else. *)
Definition is_numeric (s : string) : bool :=
  negb (String.eqb s "") && all_digits s.

Definition is_x (c : ascii) : bool := (code c =? 120) || (code c =? 88).

(** The first character of [s], if any, is none of [bad]. *)
Definition head_not (bad : ascii → bool) (s : string) : bool :=
  match s with
  | String c _ => negb (bad c)
  | EmptyString => true
  end.

(** No integer can be read from [s]: after white space and an optional
    sign there is no digit. *)
Definition no_leading_integer (s : string) : bool :=
  match snd (strip_sign (trim_start s)) with
  | String c _ => negb (is_digit c)
  | EmptyString => true
  end.

(** The request bodies used in the examples. *)
Definition body_X : gmap string jsval := {[ "name"%string := JStr "X" ]}.
Definition body_D2 : gmap string jsval :=
  {[ "description"%string := JStr "D2" ]}.
Definition body_empty : gmap string jsval := ∅.
Definition body_d : gmap string jsval := {[ "description"%string := JStr "d" ]}.

(** The two GET routes. *)
Definition is_read (r : request) : bool :=
  match r with
  | GetAll | GetOne _ => true
  | _ => false
  end.

Fixpoint all_white (s : string) : bool :=
  match s with
  | String c s' => is_white c && all_white s'
  | EmptyString => true
  end.

(** An item as the handlers build it: a positive id, a truthy name and
    a truthy description. *)
Definition well_formed (i : item) : Prop :=
  1 ≤ id i ∧ to_boolean (name i) = true ∧ to_boolean (description i) = true.

(** After white space and an optional sign, [s] starts with 0x or 0X
    and no hexadecimal digit follows. *)
Definition hex_prefix_without_digits (s : string) : bool :=
  match snd (strip_sign (trim_start s)) with
  | String c (String x r) =>
      (code c =? 48) && is_x x &&
      match r with
      | String d _ => negb (bool_decide (is_Some (digit_val 16 d)))
      | EmptyString => true
      end
  | _ => false
  end.

(** The character for the decimal digit [r]. *)
Definition digit_char (r : Z) : ascii := ascii_of_N (Z.to_N (48 + r)).

(** ** Properties of [generateId] *)

Lemma Math_max_is_max x xs : is_max (x :: xs) (Math_max x xs).
Proof.
  unfold Math_max. revert x.
  induction xs as [|y xs IH]; intros x; simpl.
  - split; [left|]. intros z Hz. apply list_elem_of_singleton in Hz. lia.
  - destruct (IH (Z.max x y)) as [Hin Hle]. split.
    + apply elem_of_cons in Hin as [Heq|Hin].
      * rewrite Heq. destruct (Z.max_spec x y) as [[_ ->]|[_ ->]].
        -- right; left.
        -- left.
      * right; right; exact Hin.
    + intros z Hz.
      assert (Hxy : Z.max x y ≤ foldl Z.max (Z.max x y) xs)
        by (apply Hle; left).
      apply elem_of_cons in Hz as [->|Hz]; [lia|].
      apply elem_of_cons in Hz as [->|Hz]; [lia|].
      apply Hle. right; exact Hz.
Qed.

Lemma next_id_generateId items : next_id (ids items) (generateId items).
Proof.
  unfold next_id, generateId, ids.
  destruct (id <$> items) as [|x xs].
  - left. split; reflexivity.
  - right. exists (Math_max x xs). split; [apply Math_max_is_max|lia].
Qed.

Lemma next_id_unique xs n1 n2 : next_id xs n1 → next_id xs n2 → n1 = n2.
Proof.
  intros [[-> ->]|(m1 & [Hin1 Hle1] & ->)] [[E ->]|(m2 & [Hin2 Hle2] & ->)];
    try done.
  - apply elem_of_nil in Hin2 as [].
  - subst xs. apply elem_of_nil in Hin1 as [].
  - pose proof (Hle1 _ Hin2). pose proof (Hle2 _ Hin1). lia.
Qed.

Lemma generateId_above items k : k ∈ ids items → k < generateId items.
Proof.
  intros Hk. destruct (next_id_generateId items) as [[E _]|(m & [_ Hle] & ->)].
  - rewrite E in Hk. apply elem_of_nil in Hk as [].
  - specialize (Hle _ Hk). lia.
Qed.

Lemma generateId_fresh items : generateId items ∉ ids items.
Proof. intros H. apply generateId_above in H. lia. Qed.

(** ** Properties of the searches *)

Lemma findIndex_Some items n i :
  findIndex items n = Some i →
  ∃ old, items !! i = Some old ∧ find items n = Some old ∧ n = Int (id old).
Proof.
  unfold findIndex, find. intros H.
  destruct (list_find _ items) as [[j x]|] eqn:E; simplify_eq/=.
  apply list_find_Some in E as (Hi & Hx & _). eauto.
Qed.

Lemma find_Some items n old :
  find items n = Some old →
  ∃ i, findIndex items n = Some i ∧ items !! i = Some old ∧ n = Int (id old).
Proof.
  unfold findIndex, find. intros H.
  destruct (list_find _ items) as [[j x]|] eqn:E; simplify_eq/=.
  apply list_find_Some in E as (Hi & Hx & _). eauto.
Qed.

Lemma find_None items n : find items n = None ↔ absent items n.
Proof.
  unfold find, absent, ids. split.
  - intros H k -> Hin.
    destruct (list_find _ items) as [[j x]|] eqn:E; simplify_eq/=.
    apply list_find_None in E.
    apply list_elem_of_fmap in Hin as (x & -> & Hx).
    rewrite Forall_forall in E. by apply (E x).
  - intros H. destruct (list_find _ items) as [[j x]|] eqn:E; [|done].
    apply list_find_Some in E as (Hi & Hx & _). exfalso.
    apply (H (id x) Hx). apply list_elem_of_fmap. exists x. split; [done|].
    by eapply list_elem_of_lookup_2.
Qed.

Lemma findIndex_None items n : findIndex items n = None ↔ absent items n.
Proof.
  rewrite <- find_None. unfold find, findIndex.
  by destruct (list_find _ items) as [[j x]|].
Qed.

Lemma find_present items k :
  k ∈ ids items → ∃ old, find items (Int k) = Some old ∧ id old = k.
Proof.
  intros Hk. destruct (find items (Int k)) as [old|] eqn:E.
  - exists old. split; [done|]. apply find_Some in E as (_ & _ & _ & E).
    by simplify_eq.
  - apply find_None in E. by destruct (E k).
Qed.

Lemma filter_absent items n :
  absent items n → filter (λ i, ¬ strict_eq (id i) n) items = items.
Proof.
  unfold absent, ids. induction items as [|x items IH]; intros H; [done|].
  rewrite filter_cons_True.
  - f_equal. apply IH. intros k Hk Hin. apply (H k Hk). by right.
  - intros Hx. apply (H (id x) Hx). left.
Qed.

Lemma ids_filter items n k :
  k ∈ ids (filter (λ i, ¬ strict_eq (id i) n) items) ↔
  k ∈ ids items ∧ n ≠ Int k.
Proof.
  unfold ids. rewrite !list_elem_of_fmap. split.
  - intros (x & -> & Hx). apply list_elem_of_filter in Hx as [Hne Hx].
    split; [by exists x|]. exact Hne.
  - intros [(x & -> & Hx) Hne]. exists x. split; [done|].
    apply list_elem_of_filter. split; [exact Hne|done].
Qed.

Lemma absent_after_filter items n :
  absent (filter (λ i, ¬ strict_eq (id i) n) items) n.
Proof. intros k -> Hin. apply ids_filter in Hin as [_ Hne]. done. Qed.

(** ** The handlers, case by case *)

Lemma get_item_found items param old :
  find items (parseInt param) = Some old →
  get_item items param = (items, Response 200 (Json_item old)).
Proof. unfold get_item. by intros ->. Qed.

Lemma get_item_absent items param :
  absent items (parseInt param) →
  get_item items param = (items, Response 404 (Text "Item not found")).
Proof. intros H. apply find_None in H. unfold get_item. by rewrite H. Qed.

Lemma post_item_falsy items body :
  truthy (body_name body) = false →
  post_item items (Some body) =
    (items, Response 400 (Text "Name is required to create an item.")).
Proof.
  unfold post_item, truthy. destruct (body_name body) as [v|]; [|done].
  by intros ->.
Qed.

Lemma post_item_truthy items body v :
  body_name body = Some v → to_boolean v = true →
  let newItem :=
    Item (generateId items) v
         (js_or (body_description body) (JStr "No description provided")) in
  post_item items (Some body) =
    (items ++ [newItem], Response 201 (Json_item newItem)).
Proof. unfold post_item. by intros -> ->. Qed.

Lemma post_item_no_body items :
  post_item items None = (items, Response 500 Error_page).
Proof. reflexivity. Qed.

Lemma put_item_found items param body i old :
  findIndex items (parseInt param) = Some i → items !! i = Some old →
  let updated :=
    Item (id old) (js_or (body_name body) (name old))
         (js_or (body_description body) (description old)) in
  put_item items param (Some body) =
    (<[i := updated]> items, Response 200 (Json_item updated)).
Proof. unfold put_item. by intros -> ->. Qed.

Lemma put_item_found_no_body items param i old :
  findIndex items (parseInt param) = Some i → items !! i = Some old →
  put_item items param None = (items, Response 500 Error_page).
Proof. unfold put_item. by intros -> ->. Qed.

Lemma put_item_absent items param body :
  absent items (parseInt param) →
  put_item items param body =
    (items, Response 404 (Text "Item not found")).
Proof. intros H. apply findIndex_None in H. unfold put_item. by rewrite H. Qed.

Lemma delete_item_absent items param :
  absent items (parseInt param) →
  delete_item items param = (items, Response 404 (Text "Item not found")).
Proof.
  intros H. unfold delete_item. rewrite filter_absent by done.
  case_decide; [lia|done].
Qed.

Lemma delete_item_present items param k :
  parseInt param = Int k → k ∈ ids items →
  delete_item items param =
    (filter (λ i, ¬ strict_eq (id i) (Int k)) items, Response 204 Empty).
Proof.
  intros Hp Hk. unfold delete_item. rewrite Hp. case_decide as Hlen; [done|].
  exfalso. apply Hlen. apply list_elem_of_fmap in Hk as (x & -> & Hx).
  apply (length_filter_lt _ _ x); [done|]. intros Hne. by apply Hne.
Qed.

Lemma js_or_truthy v b : to_boolean v = true → js_or (Some v) b = v.
Proof. simpl. by intros ->. Qed.

Lemma js_or_falsy o b : truthy o = false → js_or o b = b.
Proof. destruct o as [v|]; simpl; [|done]. by intros ->. Qed.

Lemma parse_digits_no_digit c s :
  is_digit c = false → parse_digits 10 (String c s) None = None.
Proof.
  unfold is_digit. intros H. simpl. unfold digit_val. rewrite H.
  by replace (10 =? 16) with false by done.
Qed.

Lemma strip_hex_prefix_no_digit c s :
  is_digit c = false → strip_hex_prefix (String c s) = (10, String c s).
Proof.
  intros H. unfold strip_hex_prefix.
  destruct c as [[] [] [] [] [] [] [] []]; try done.
Qed.


(** ** Creation *)

(** C1.  A POST whose body carries a truthy name [v] (the text "X" for
    one) appends exactly one item and answers 201 with it.  The new item
    has that name; its id is 1 + the largest id in the store, or 1 for
    the empty store; its description is "No description provided" when
    the body has none; and its id is 4 whenever the ids in the store are
    exactly 1, 2 and 3. *)
Theorem post_item_allocates_next_id items body v :
  body_name body = Some v → to_boolean v = true →
  ∃ newItem,
    post_item items (Some body) =
      (items ++ [newItem], Response 201 (Json_item newItem)) ∧
    name newItem = v ∧
    next_id (ids items) (id newItem) ∧
    (body_description body = None →
       description newItem = JStr "No description provided") ∧
    ((∀ k, k ∈ ids items ↔ k = 1 ∨ k = 2 ∨ k = 3) → id newItem = 4).
Proof.
  intros Hn Hv. eexists. split; [by apply post_item_truthy|]. simpl.
  split; [done|]. split; [apply next_id_generateId|]. split.
  - by intros ->.
  - intros Hids.
    destruct (next_id_generateId items) as [[E _]|(m & [Hin Hle] & ->)].
    + assert (H1 : 1 ∈ ids items) by (apply Hids; auto).
      rewrite E in H1. apply elem_of_nil in H1 as [].
    + assert (H3 : 3 ≤ m) by (apply Hle, Hids; auto).
      apply Hids in Hin. lia.
Qed.

Lemma post_item_allocates_next_id_witness :
  ∃ newItem,
    post_item initial_items (Some body_X) =
      (initial_items ++ [newItem], Response 201 (Json_item newItem)) ∧
    name newItem = JStr "X" ∧
    next_id (ids initial_items) (id newItem) ∧
    (body_description body_X = None →
       description newItem = JStr "No description provided") ∧
    ((∀ k, k ∈ ids initial_items ↔ k = 1 ∨ k = 2 ∨ k = 3) → id newItem = 4).
Proof.
  apply (post_item_allocates_next_id initial_items body_X (JStr "X"));
    reflexivity.
Defined.

(** A POST with a parsed body that has no name, or the empty text as
    name, is answered 400 with the fixed message, and the store it
    returns is the store it was given. *)
Lemma post_item_rejects_missing_name items body :
  body_name body = None ∨ body_name body = Some (JStr "") →
  post_item items (Some body) =
    (items, Response 400 (Text "Name is required to create an item.")).
Proof. intros [H|H]; apply post_item_falsy; by rewrite H. Qed.

Lemma post_item_rejects_missing_name_witness :
  post_item initial_items (Some body_d) =
    (initial_items, Response 400 (Text "Name is required to create an item.")).
Proof.
  apply (post_item_rejects_missing_name initial_items body_d).
  left. reflexivity.
Defined.

Example post_item_empty_body :
  post_item initial_items (Some body_empty) =
    (initial_items, Response 400 (Text "Name is required to create an item.")).
Proof. reflexivity. Qed.

(** C4.  A POST without a body has no name either, but it is not
    answered 400: reading [req.body.name] throws, the answer is 500 and
    the store is returned as it was; the empty object as body is
    answered 400. *)
Theorem post_item_without_body items :
  post_item items None = (items, Response 500 Error_page) ∧
  status (post_item items None).2 ≠ 400 ∧
  post_item items (Some body_empty) =
    (items, Response 400 (Text "Name is required to create an item.")).
Proof. repeat split. done. Qed.

(** ** Listing *)

(** C9.  Before any request has been handled the store holds the three
    seeded items, and GET /api/items answers 200 with exactly these
    three, ids 1, 2, 3, each with its seeded name and description. *)
Theorem get_items_initially :
  run initial_items [] = initial_items ∧
  get_items initial_items =
    (initial_items,
     Response 200 (Json_items
       [ Item 1 (JStr "Item A") (JStr "Description for Item A");
         Item 2 (JStr "Item B") (JStr "Description for Item B");
         Item 3 (JStr "Item C") (JStr "Description for Item C") ])) ∧
  ids initial_items = [1; 2; 3] ∧
  length initial_items = 3%nat.
Proof. repeat split. Qed.

(** ** Update *)

(** C2.  A PUT on the id of an item in the store answers 200 with the
    merged item and writes it in the place of the old one, every other
    position of the store staying as it was.  The merged item keeps the
    id; each of name and description is the body's value when that value
    is truthy (a non-empty text for one) and the old value when the body
    has none or a falsy one (the empty text for one). *)
Theorem put_item_partial_update items param body k :
  parseInt param = Int k → k ∈ ids items →
  ∃ i old updated,
    items !! i = Some old ∧ id old = k ∧
    put_item items param (Some body) =
      (<[i := updated]> items, Response 200 (Json_item updated)) ∧
    id updated = id old ∧
    (truthy (body_name body) = false → name updated = name old) ∧
    (truthy (body_description body) = false →
       description updated = description old) ∧
    (∀ v, body_name body = Some v → to_boolean v = true → name updated = v) ∧
    (∀ v, body_description body = Some v → to_boolean v = true →
       description updated = v).
Proof.
  intros Hp Hk. destruct (find_present _ _ Hk) as (old & Hf & Hid).
  rewrite <- Hp in Hf. apply find_Some in Hf as (i & Hi & Hold & _).
  exists i, old. eexists. split; [done|]. split; [done|].
  split; [by apply put_item_found|]. simpl. split; [done|].
  split; [apply js_or_falsy|]. split; [apply js_or_falsy|].
  split; intros v -> Hv; by apply js_or_truthy.
Qed.

Lemma put_item_partial_update_witness :
  ∃ i old updated,
    [Item 1 (JStr "A") (JStr "D")] !! i = Some old ∧ id old = 1 ∧
    put_item [Item 1 (JStr "A") (JStr "D")] "1" (Some body_D2) =
      (<[i := updated]> [Item 1 (JStr "A") (JStr "D")],
       Response 200 (Json_item updated)) ∧
    id updated = id old ∧
    (truthy (body_name body_D2) = false → name updated = name old) ∧
    (truthy (body_description body_D2) = false →
       description updated = description old) ∧
    (∀ v, body_name body_D2 = Some v → to_boolean v = true →
       name updated = v) ∧
    (∀ v, body_description body_D2 = Some v → to_boolean v = true →
       description updated = v).
Proof.
  apply (put_item_partial_update [Item 1 (JStr "A") (JStr "D")] "1" body_D2 1).
  - reflexivity.
  - simpl. left.
Defined.

Example put_item_description_only :
  put_item [Item 1 (JStr "A") (JStr "D")] "1" (Some body_D2) =
    ([Item 1 (JStr "A") (JStr "D2")],
     Response 200 (Json_item (Item 1 (JStr "A") (JStr "D2")))).
Proof. reflexivity. Qed.

(** ** Not found *)

Lemma put_item_status items param body :
  status (put_item items param (Some body)).2 = 200 ∨
  status (put_item items param (Some body)).2 = 404.
Proof.
  unfold put_item. destruct (findIndex items (parseInt param)) as [i|] eqn:E.
  - apply findIndex_Some in E as (old & -> & _). by left.
  - by right.
Qed.

Lemma get_item_status items param :
  status (get_item items param).2 = 200 ∨
  status (get_item items param).2 = 404.
Proof. unfold get_item. destruct (find _ _); [by left|by right]. Qed.




(** ** Distinct ids *)

Lemma ids_app items1 items2 : ids (items1 ++ items2) = ids items1 ++ ids items2.
Proof. apply fmap_app. Qed.

Lemma post_item_ids items body :
  ids (post_item items body).1 = ids items ∨
  ids (post_item items body).1 = ids items ++ [generateId items].
Proof.
  unfold post_item. destruct body as [body|]; [|by left].
  destruct (body_name body) as [v|]; [|by left].
  destruct (to_boolean v); [|by left]. right. simpl. by rewrite ids_app.
Qed.

Lemma put_item_ids items param body :
  ids (put_item items param body).1 = ids items.
Proof.
  unfold put_item. destruct (findIndex items (parseInt param)) as [i|]; [|done].
  destruct (items !! i) as [old|] eqn:E; [|done].
  destruct body as [body|]; [|done]. simpl. unfold ids.
  rewrite list_fmap_insert. apply list_insert_id.
  by rewrite list_lookup_fmap, E.
Qed.

Lemma delete_item_store items param :
  (delete_item items param).1 =
    filter (λ i, ¬ strict_eq (id i) (parseInt param)) items.
Proof. unfold delete_item. by case_decide. Qed.

Lemma NoDup_ids_filter (P : item → Prop) `{!∀ x, Decision (P x)} items :
  NoDup (ids items) → NoDup (ids (filter P items)).
Proof.
  intros Hnd. eapply sublist_NoDup; [exact Hnd|].
  unfold ids. apply fmap_sublist, sublist_filter.
Qed.

Lemma handle_NoDup items r :
  NoDup (ids items) → NoDup (ids (handle items r).1).
Proof.
  intros H. destruct r as [|param|body|param body|param]; simpl.
  - done.
  - unfold get_item. by destruct (find _ _).
  - destruct (post_item_ids items body) as [->| ->]; [done|].
    apply NoDup_app. split; [done|]. split; [|apply NoDup_singleton].
    intros k Hk Hk'. apply list_elem_of_singleton in Hk'. subst k.
    by apply generateId_fresh in Hk.
  - by rewrite put_item_ids.
  - rewrite delete_item_store. by apply NoDup_ids_filter.
Qed.

Lemma run_NoDup rs items : NoDup (ids items) → NoDup (ids (run items rs)).
Proof.
  revert items. induction rs as [|r rs IH]; intros items H; [done|].
  apply (IH (handle items r).1). by apply handle_NoDup.
Qed.

Lemma initial_items_NoDup : NoDup (ids initial_items).
Proof.
  unfold ids. simpl.
  repeat (apply NoDup_cons_2; [rewrite ?elem_of_cons, elem_of_nil; lia|]).
  apply NoDup_nil_2.
Qed.

(** C7.  Whatever requests the server has handled since it started,
    no two items of the store have the same id. *)
Theorem reachable_ids_distinct rs : NoDup (ids (run initial_items rs)).
Proof. apply run_NoDup, initial_items_NoDup. Qed.

(** ** Deletion *)

Lemma length_filter_NoDup items k :
  NoDup (ids items) → k ∈ ids items →
  length items = S (length (filter (λ i, ¬ strict_eq (id i) (Int k)) items)).
Proof.
  unfold ids. induction items as [|x items IH]; simpl; intros Hnd Hk.
  - apply elem_of_nil in Hk as [].
  - apply NoDup_cons in Hnd as [Hx Hnd].
    destruct (decide (id x = k)) as [<-|Hne].
    + rewrite filter_cons_False by (intros H; by apply H).
      rewrite filter_absent; [done|]. intros k' Hk'. by simplify_eq.
    + rewrite filter_cons_True by (intros H; apply Hne; by inversion H).
      simpl. f_equal. apply IH; [done|].
      apply elem_of_cons in Hk as [Hk|Hk]; [by subst|done].
Qed.

(** C8.  In a store whose ids are distinct (every store the server can
    reach, by C7), a DELETE on an id that is present answers 204 with an
    empty body and returns a store with exactly one item fewer, namely
    the items whose id differs; the same DELETE again answers 404 "Item
    not found" and returns that store as it is. *)
Theorem delete_item_removes_one items param k :
  NoDup (ids items) → parseInt param = Int k → k ∈ ids items →
  ∃ items',
    delete_item items param = (items', Response 204 Empty) ∧
    length items = S (length items') ∧
    (∀ x, x ∈ items' ↔ x ∈ items ∧ id x ≠ k) ∧
    delete_item items' param =
      (items', Response 404 (Text "Item not found")).
Proof.
  intros Hnd Hp Hk. eexists. split; [by apply (delete_item_present _ _ k)|].
  split; [by apply length_filter_NoDup|]. split.
  - intros x. rewrite list_elem_of_filter. unfold strict_eq.
    split.
    + intros [H1 H2]. split; [done|]. intros E. apply H1. by rewrite E.
    + intros [H1 H2]. split; [|done]. intros E. apply H2. by simplify_eq.
  - apply delete_item_absent. rewrite Hp. apply absent_after_filter.
Qed.

Lemma delete_item_removes_one_witness :
  ∃ items',
    delete_item initial_items "1" = (items', Response 204 Empty) ∧
    length initial_items = S (length items') ∧
    (∀ x, x ∈ items' ↔ x ∈ initial_items ∧ id x ≠ 1) ∧
    delete_item items' "1" = (items', Response 404 (Text "Item not found")).
Proof.
  apply (delete_item_removes_one initial_items "1" 1).
  - apply initial_items_NoDup.
  - reflexivity.
  - simpl. left.
Defined.

Example delete_item_twice :
  delete_item initial_items "1" =
    ([ Item 2 (JStr "Item B") (JStr "Description for Item B");
       Item 3 (JStr "Item C") (JStr "Description for Item C") ],
     Response 204 Empty) ∧
  (delete_item (delete_item initial_items "1").1 "1").2 =
    Response 404 (Text "Item not found").
Proof. split; reflexivity. Qed.

(** ** Ids after a deletion *)

Lemma post_item_created items body newItem :
  (post_item items body).2 = Response 201 (Json_item newItem) →
  id newItem = generateId items ∧
  (post_item items body).1 = items ++ [newItem].
Proof.
  unfold post_item. destruct body as [body|]; [|done].
  destruct (body_name body) as [v|]; [|done].
  destruct (to_boolean v); [|done]. simpl. intros H. by simplify_eq.
Qed.

(** The seeded store after two creations and the deletion of ids 2, 3
    and 4: ids 1 and 5 remain. *)
Example store_with_gap :
  run initial_items
      [Post (Some body_X); Post (Some body_X); Delete "2"; Delete "3"; Delete "4"] =
    [ Item 1 (JStr "Item A") (JStr "Description for Item A");
      Item 5 (JStr "X") (JStr "No description provided") ].
Proof. reflexivity. Qed.

(** C5 fails as stated: in the reachable store with ids 1 and 5, the
    largest id is 5; after DELETE /api/items/5 a POST creates an item
    with id 2, not 5. *)
Lemma gap_below_max_not_reused :
  let items :=
    run initial_items
        [Post (Some body_X); Post (Some body_X); Delete "2"; Delete "3"; Delete "4"] in
  ids items = [1; 5] ∧
  (delete_item items "5").2 = Response 204 Empty ∧
  (post_item (delete_item items "5").1 (Some body_X)).2 =
    Response 201
      (Json_item (Item 2 (JStr "X") (JStr "No description provided"))).
Proof. repeat split. Qed.

(** C5, as amended.  Deleting the largest id [m] of a store and then
    creating an item gives the new item the id 1 + the largest remaining
    id, or 1 when nothing remains.  That id is [m] again exactly when
    [m - 1] is still in the store, or when [m] is 1 and the store has
    become empty; for a positive [m] it never exceeds [m]. *)
Theorem delete_max_then_create items param m body v :
  is_max (ids items) m → parseInt param = Int m →
  body_name body = Some v → to_boolean v = true →
  ∃ items' newItem,
    delete_item items param = (items', Response 204 Empty) ∧
    (post_item items' (Some body)).2 = Response 201 (Json_item newItem) ∧
    next_id (ids items') (id newItem) ∧
    (id newItem = m ↔ m - 1 ∈ ids items' ∨ (items' = [] ∧ m = 1)) ∧
    (1 ≤ m → id newItem ≤ m).
Proof.
  intros [Hin Hle] Hp Hn Hv. eexists. eexists.
  split; [by apply (delete_item_present _ _ m)|].
  split; [by rewrite (post_item_truthy _ _ v)|]. simpl.
  set (items' := filter _ items).
  assert (Hlt : ∀ j, j ∈ ids items' → j < m).
  { intros j Hj. apply ids_filter in Hj as [Hj Hne].
    specialize (Hle _ Hj). assert (j ≠ m) by congruence. lia. }
  split; [apply next_id_generateId|].
  destruct (next_id_generateId items') as [[E ->]|(m' & [Hin' Hle'] & ->)].
  - split; [|lia]. split.
    + intros <-. right. split; [|done]. by destruct items'.
    + intros [H|[_ ->]]; [|done]. rewrite E in H. by apply elem_of_nil in H.
  - pose proof (Hlt _ Hin'). split; [|lia]. split.
    + intros <-. left. by replace (1 + m' - 1) with m' by lia.
    + intros [Hm|[E _]].
      * specialize (Hle' _ Hm). lia.
      * rewrite E in Hin'. by apply elem_of_nil in Hin'.
Qed.

Lemma delete_max_then_create_witness :
  ∃ items' newItem,
    delete_item initial_items "3" = (items', Response 204 Empty) ∧
    (post_item items' (Some body_X)).2 = Response 201 (Json_item newItem) ∧
    next_id (ids items') (id newItem) ∧
    (id newItem = 3 ↔ 3 - 1 ∈ ids items' ∨ (items' = [] ∧ 3 = 1)) ∧
    (1 ≤ 3 → id newItem ≤ 3).
Proof.
  apply (delete_max_then_create initial_items "3" 3 body_X (JStr "X")).
  - split.
    + simpl. right. right. left.
    + simpl. intros y Hy. rewrite !elem_of_cons, elem_of_nil in Hy. lia.
  - reflexivity.
  - reflexivity.
  - reflexivity.
Defined.

Example seeded_max_id_reused :
  (post_item (delete_item initial_items "3").1 (Some body_X)).2 =
    Response 201
      (Json_item (Item 3 (JStr "X") (JStr "No description provided"))).
Proof. reflexivity. Qed.

(** C6 fails as stated: on the seeded store DELETE /api/items/3 removes
    item 3, and the POST that follows creates an item with id 3. *)
Lemma deleted_id_assigned_again :
  3 ∈ ids initial_items ∧
  handle initial_items (Delete "3") =
    ([ Item 1 (JStr "Item A") (JStr "Description for Item A");
       Item 2 (JStr "Item B") (JStr "Description for Item B") ],
     Response 204 Empty) ∧
  (handle (run initial_items [Delete "3"]) (Post (Some body_X))).2 =
    Response 201
      (Json_item (Item 3 (JStr "X") (JStr "No description provided"))).
Proof. split; [|split; reflexivity]. simpl. right. right. left. Qed.

Lemma run_app items rs1 rs2 :
  run items (rs1 ++ rs2) = run (run items rs1) rs2.
Proof. unfold run. apply foldl_app. Qed.

Lemma generateId_eq items k :
  generateId items = k ↔ (items = [] ∧ k = 1) ∨ is_max (ids items) (k - 1).
Proof.
  split.
  - intros <-.
    destruct (next_id_generateId items) as [[E ->]|(m & Hm & ->)].
    + left. split; [|done]. by destruct items.
    + right. by replace (1 + m - 1) with m by lia.
  - intros H. apply (next_id_unique (ids items)); [apply next_id_generateId|].
    destruct H as [[-> ->]|H]; [by left|].
    right. exists (k - 1). split; [done|lia].
Qed.

(** C6, as amended.  Take any requests handled since start, then a
    DELETE of an id [k] of the store, then any further requests, then a
    POST that creates an item.  The DELETE answers 204 and leaves no item
    with id [k].  The new item gets the id [k] again exactly when, at the
    time of the POST, the largest id in the store is [k - 1], or the
    store is empty and [k] is 1; the new id is larger than every id in
    the store at that moment. *)
Theorem deleted_id_reuse_condition rs1 param k rs2 body newItem :
  parseInt param = Int k → k ∈ ids (run initial_items rs1) →
  (handle (run initial_items (rs1 ++ [Delete param] ++ rs2)) (Post body)).2 =
    Response 201 (Json_item newItem) →
  (handle (run initial_items rs1) (Delete param)).2 = Response 204 Empty ∧
  (k ∉ ids (run initial_items (rs1 ++ [Delete param]))) ∧
  (id newItem = k ↔
     ((run initial_items (rs1 ++ [Delete param] ++ rs2) = [] ∧ k = 1) ∨
      is_max (ids (run initial_items (rs1 ++ [Delete param] ++ rs2)))
             (k - 1))) ∧
  (∀ j, j ∈ ids (run initial_items (rs1 ++ [Delete param] ++ rs2)) →
        j < id newItem).
Proof.
  intros Hp Hk Hc. simpl in Hc. apply post_item_created in Hc as [Hid _].
  split; [simpl; by rewrite (delete_item_present _ _ k)|].
  split.
  { rewrite run_app. simpl. rewrite (delete_item_present _ _ k) by done.
    simpl. intros Hin. apply ids_filter in Hin as [_ Hne]. done. }
  split; [rewrite Hid; apply generateId_eq|].
  intros j Hj. rewrite Hid. by apply generateId_above.
Qed.

Lemma deleted_id_reuse_condition_witness :
  (handle (run initial_items []) (Delete "3")).2 = Response 204 Empty ∧
  (3 ∉ ids (run initial_items ([] ++ [Delete "3"]))) ∧
  (id (Item 3 (JStr "X") (JStr "No description provided")) = 3 ↔
     ((run initial_items ([] ++ [Delete "3"] ++ []) = [] ∧ 3 = 1) ∨
      is_max (ids (run initial_items ([] ++ [Delete "3"] ++ []))) (3 - 1))) ∧
  (∀ j, j ∈ ids (run initial_items ([] ++ [Delete "3"] ++ [])) →
        j < id (Item 3 (JStr "X") (JStr "No description provided"))).
Proof.
  apply (deleted_id_reuse_condition [] "3" 3 [] (Some body_X)
           (Item 3 (JStr "X") (JStr "No description provided"))).
  - reflexivity.
  - simpl. right. right. left.
  - reflexivity.
Defined.

(** After DELETE 5 on the store with ids 1 and 5 only id 1 remains, and
    the next POST creates id 2: the deleted id 5 is not assigned again. *)
Example deleted_id_not_reused_after_gap :
  let rs1 := [Post (Some body_X); Post (Some body_X);
              Delete "2"; Delete "3"; Delete "4"] in
  ids (run initial_items (rs1 ++ [Delete "5"])) = [1] ∧
  (handle (run initial_items (rs1 ++ [Delete "5"])) (Post (Some body_X))).2 =
    Response 201
      (Json_item (Item 2 (JStr "X") (JStr "No description provided"))).
Proof. split; reflexivity. Qed.

(** ** Path parameters that start with digits *)

Lemma digit_val_digit c : is_digit c = true → digit_val 10 c = Some (code c - 48).
Proof. unfold is_digit, digit_val. by intros ->. Qed.

Lemma digit_val_no_digit c : is_digit c = false → digit_val 10 c = None.
Proof. unfold is_digit, digit_val. by intros ->. Qed.

Lemma parse_digits_app ds rest acc :
  all_digits ds = true → head_not is_digit rest = true →
  parse_digits 10 (ds ++ rest) acc = parse_digits 10 ds acc.
Proof.
  revert acc. induction ds as [|c ds IH]; intros acc Hds Hrest; simpl.
  - destruct rest as [|c rest]; [done|]. simpl in *.
    apply negb_true_iff in Hrest. by rewrite digit_val_no_digit.
  - simpl in Hds. apply andb_true_iff in Hds as [Hc Hds].
    rewrite digit_val_digit by done. by apply IH.
Qed.

Lemma trim_start_digit c s :
  is_digit c = true → trim_start (String c s) = String c s.
Proof. intros H. simpl. destruct c as [[] [] [] [] [] [] [] []]; done. Qed.

Lemma strip_sign_digit c s :
  is_digit c = true → strip_sign (String c s) = (1, String c s).
Proof. intros H. destruct c as [[] [] [] [] [] [] [] []]; done. Qed.

Lemma strip_hex_prefix_digit c s :
  is_digit c = true → head_not is_x s = true →
  strip_hex_prefix (String c s) = (10, String c s).
Proof.
  intros Hc Hs. destruct c as [[] [] [] [] [] [] [] []]; try done.
  destruct s as [|d s]; [done|].
  destruct d as [[] [] [] [] [] [] [] []]; done.
Qed.

Lemma is_digit_not_x c : is_digit c = true → is_x c = false.
Proof. destruct c as [[] [] [] [] [] [] [] []]; done. Qed.

Lemma head_not_x_digits ds rest :
  all_digits ds = true → head_not is_x rest = true →
  head_not is_x (ds ++ rest) = true.
Proof.
  destruct ds as [|c ds]; simpl; [done|]. intros H _.
  apply andb_true_iff in H as [Hc _]. by rewrite is_digit_not_x.
Qed.

Lemma parseInt_numeric_prefix ds rest :
  is_numeric ds = true →
  head_not is_digit rest = true → head_not is_x rest = true →
  parseInt (ds ++ rest) = parseInt ds.
Proof.
  unfold is_numeric. destruct ds as [|c ds]; [done|]. simpl.
  intros H Hd Hx. apply andb_true_iff in H as [Hc Hds].
  unfold parseInt.
  change (String c ds +:+ rest) with (String c (ds +:+ rest)).
  rewrite !trim_start_digit, !strip_sign_digit by done.
  rewrite !strip_hex_prefix_digit; try done.
  - change (String c (ds +:+ rest)) with (String c ds +:+ rest).
    rewrite parse_digits_app; [done| |done]. simpl. by rewrite Hc.
  - destruct ds as [|d ds]; [done|]. simpl in *.
    apply andb_true_iff in Hds as [Hd' _]. by rewrite is_digit_not_x.
  - by apply head_not_x_digits.
Qed.

Lemma not_numeric_suffix ds rest :
  rest ≠ EmptyString → head_not is_digit rest = true →
  is_numeric (ds ++ rest) = false.
Proof.
  intros Hne Hd. unfold is_numeric. apply andb_false_iff. right.
  induction ds as [|c ds IH]; simpl.
  - destruct rest as [|d rest]; [done|]. simpl in *.
    apply negb_true_iff in Hd. by rewrite Hd.
  - rewrite IH. apply andb_false_r.
Qed.

Lemma filter_strict_eq (items : list item) k :
  filter (λ i, ¬ strict_eq (id i) (Int k)) items =
  filter (λ i, id i ≠ k) items.
Proof.
  apply list_filter_iff. intros x. unfold strict_eq.
  split; intros H E; apply H; congruence.
Qed.

(** C10.  Let a path parameter consist of decimal digits [ds] followed
    by a non-empty rest that begins with neither a digit nor x or X
    ("3abc" for one).  It is not numeric, yet it parses to the integer
    [k] that [ds] alone parses to.  When the store has an item with id
    [k], each request acts on that item, just as on the parameter [ds]:
    GET answers 200 with the first item [it] that has id [k]; PUT (with
    a body) answers 200 with [it] merged with the body and writes the
    merged item in its place; DELETE answers 204 and returns the store
    without the items of id [k]. *)
Theorem digit_prefix_param_reaches_item ds rest k items body :
  is_numeric ds = true → rest ≠ EmptyString →
  head_not is_digit rest = true → head_not is_x rest = true →
  parseInt ds = Int k → k ∈ ids items →
  is_numeric (ds ++ rest) = false ∧
  parseInt (ds ++ rest) = Int k ∧
  (∃ i it,
     items !! i = Some it ∧ id it = k ∧ find items (Int k) = Some it ∧
     get_item items (ds ++ rest) = (items, Response 200 (Json_item it)) ∧
     put_item items (ds ++ rest) (Some body) =
       (<[i := Item k (js_or (body_name body) (name it))
                      (js_or (body_description body) (description it))]>
          items,
        Response 200
          (Json_item (Item k (js_or (body_name body) (name it))
                             (js_or (body_description body)
                                    (description it)))))) ∧
  put_item items (ds ++ rest) (Some body) = put_item items ds (Some body) ∧
  status (put_item items (ds ++ rest) (Some body)).2 = 200 ∧
  delete_item items (ds ++ rest) = delete_item items ds ∧
  delete_item items (ds ++ rest) =
    (filter (λ x, id x ≠ k) items, Response 204 Empty).
Proof.
  intros Hds Hne Hd Hx Hp Hk.
  pose proof (parseInt_numeric_prefix ds rest Hds Hd Hx) as Hpre.
  assert (Hp' : parseInt (ds ++ rest) = Int k) by congruence.
  destruct (find_present _ _ Hk) as (it & Hf & Hid).
  destruct (find_Some _ _ _ Hf) as (i & Hi & Hit & _).
  assert (Hput : put_item items (ds ++ rest) (Some body) =
    (<[i := Item k (js_or (body_name body) (name it))
                   (js_or (body_description body) (description it))]> items,
     Response 200
       (Json_item (Item k (js_or (body_name body) (name it))
                          (js_or (body_description body) (description it)))))).
  { rewrite <- Hid. apply put_item_found; [by rewrite Hp'|done]. }
  split; [by apply not_numeric_suffix|]. split; [done|]. split.
  { exists i, it. split; [done|]. split; [done|]. split; [done|].
    split; [|done]. apply get_item_found. by rewrite Hp'. }
  split; [unfold put_item; by rewrite Hpre|].
  split; [by rewrite Hput|].
  split; [unfold delete_item; by rewrite Hpre|].
  by rewrite (delete_item_present _ _ k), filter_strict_eq.
Qed.

Lemma digit_prefix_param_reaches_item_witness :
  is_numeric "3abc" = false ∧
  parseInt "3abc" = Int 3 ∧
  (∃ i it,
     initial_items !! i = Some it ∧ id it = 3 ∧
     find initial_items (Int 3) = Some it ∧
     get_item initial_items "3abc" =
       (initial_items, Response 200 (Json_item it)) ∧
     put_item initial_items "3abc" (Some body_D2) =
       (<[i := Item 3 (js_or (body_name body_D2) (name it))
                      (js_or (body_description body_D2) (description it))]>
          initial_items,
        Response 200
          (Json_item (Item 3 (js_or (body_name body_D2) (name it))
                             (js_or (body_description body_D2)
                                    (description it)))))) ∧
  put_item initial_items "3abc" (Some body_D2) =
    put_item initial_items "3" (Some body_D2) ∧
  status (put_item initial_items "3abc" (Some body_D2)).2 = 200 ∧
  delete_item initial_items "3abc" = delete_item initial_items "3" ∧
  delete_item initial_items "3abc" =
    (filter (λ x, id x ≠ 3) initial_items, Response 204 Empty).
Proof.
  apply (digit_prefix_param_reaches_item "3" "abc" 3 initial_items body_D2).
  - reflexivity.
  - discriminate.
  - reflexivity.
  - reflexivity.
  - reflexivity.
  - simpl. right. right. left.
Defined.

Example param_3abc :
  get_item initial_items "3abc" =
    (initial_items,
     Response 200
       (Json_item (Item 3 (JStr "Item C") (JStr "Description for Item C")))) ∧
  put_item initial_items "3abc" (Some body_D2) =
    ([ Item 1 (JStr "Item A") (JStr "Description for Item A");
       Item 2 (JStr "Item B") (JStr "Description for Item B");
       Item 3 (JStr "Item C") (JStr "D2") ],
     Response 200 (Json_item (Item 3 (JStr "Item C") (JStr "D2")))) ∧
  delete_item initial_items "3abc" =
    ([ Item 1 (JStr "Item A") (JStr "Description for Item A");
       Item 2 (JStr "Item B") (JStr "Description for Item B") ],
     Response 204 Empty).
Proof. repeat split. Qed.

(** The prefix 0x makes the digits hexadecimal: "0x3" reaches item 3. *)
Example param_0x3 :
  parseInt "0x3" = Int 3 ∧
  get_item initial_items "0x3" =
    (initial_items,
     Response 200
       (Json_item (Item 3 (JStr "Item C") (JStr "Description for Item C")))).
Proof. split; reflexivity. Qed.

(** ** Reading back what was written *)

Lemma findIndex_ids items n :
  findIndex items n = fst <$> list_find (λ z, strict_eq z n) (ids items).
Proof.
  unfold findIndex, ids. rewrite list_find_fmap. unfold compose.
  by destruct (list_find _ items) as [[i x]|].
Qed.

Lemma findIndex_same_ids items1 items2 n :
  ids items1 = ids items2 → findIndex items1 n = findIndex items2 n.
Proof. intros E. by rewrite !findIndex_ids, E. Qed.

Lemma find_lookup items n i x :
  findIndex items n = Some i → items !! i = Some x → find items n = Some x.
Proof.
  intros Hi Hx. apply findIndex_Some in Hi as (old & Hold & Hf & _).
  congruence.
Qed.

Lemma ids_insert_same items i old x :
  items !! i = Some old → id x = id old → ids (<[i := x]> items) = ids items.
Proof.
  intros Hi Hid. unfold ids. rewrite list_fmap_insert. apply list_insert_id.
  by rewrite list_lookup_fmap, Hi, Hid.
Qed.

Lemma find_app_fresh items x :
  id x ∉ ids items → find (items ++ [x]) (Int (id x)) = Some x.
Proof.
  intros Hx. unfold find. rewrite list_find_app_r.
  - simpl. rewrite decide_True by done. done.
  - apply list_find_None, Forall_forall. intros y Hy E. apply Hx.
    unfold strict_eq in E. injection E as E. rewrite E.
    by apply list_elem_of_fmap_2.
Qed.

Lemma js_or_idem a b : js_or a (js_or a b) = js_or a b.
Proof. destruct a as [v|]; simpl; [|done]. by destruct (to_boolean v). Qed.

(** X1.  After a POST that created an item, a GET on any parameter that
    parses to the new id answers 200 with exactly that item. *)
Theorem post_then_get items body newItem param :
  (post_item items body).2 = Response 201 (Json_item newItem) →
  parseInt param = Int (id newItem) →
  get_item (post_item items body).1 param =
    ((post_item items body).1, Response 200 (Json_item newItem)).
Proof.
  intros Hc Hp. apply post_item_created in Hc as [Hid ->].
  apply get_item_found. rewrite Hp. apply find_app_fresh.
  rewrite Hid. apply generateId_fresh.
Qed.

Lemma post_then_get_witness :
  get_item (post_item initial_items (Some body_X)).1 "4" =
    ((post_item initial_items (Some body_X)).1,
     Response 200
       (Json_item (Item 4 (JStr "X") (JStr "No description provided")))).
Proof.
  apply (post_then_get initial_items (Some body_X)
           (Item 4 (JStr "X") (JStr "No description provided")) "4");
    reflexivity.
Defined.

Lemma put_item_cases items param req_body :
  (absent items (parseInt param) ∧
   put_item items param req_body =
     (items, Response 404 (Text "Item not found"))) ∨
  (∃ i old body,
     req_body = Some body ∧
     findIndex items (parseInt param) = Some i ∧ items !! i = Some old ∧
     put_item items param req_body =
       (<[i := Item (id old) (js_or (body_name body) (name old))
                    (js_or (body_description body) (description old))]> items,
        Response 200
          (Json_item (Item (id old) (js_or (body_name body) (name old))
                           (js_or (body_description body)
                                  (description old)))))) ∨
  (∃ i old,
     req_body = None ∧
     findIndex items (parseInt param) = Some i ∧ items !! i = Some old ∧
     put_item items param req_body = (items, Response 500 Error_page)).
Proof.
  destruct (findIndex items (parseInt param)) as [i|] eqn:E.
  - right. destruct (findIndex_Some _ _ _ E) as (old & Hold & _).
    destruct req_body as [body|].
    + left. exists i, old, body. split; [done|]. split; [done|].
      split; [done|]. by apply put_item_found.
    + right. exists i, old. split; [done|]. split; [done|].
      split; [done|]. by eapply put_item_found_no_body.
  - left. apply findIndex_None in E. split; [done|]. by apply put_item_absent.
Qed.

(** X2.  After a PUT that answered 200 with an item, a GET on the same
    parameter answers 200 with that same item. *)
Theorem put_then_get items param body updated :
  (put_item items param body).2 = Response 200 (Json_item updated) →
  get_item (put_item items param body).1 param =
    ((put_item items param body).1, Response 200 (Json_item updated)).
Proof.
  destruct (put_item_cases items param body)
    as [[_ ->]|[(i & old & b & _ & Hi & Hold & ->)|(i & old & _ & _ & _ & ->)]];
    [done| |done].
  simpl. intros H. simplify_eq. apply get_item_found.
  eapply find_lookup.
  - erewrite findIndex_same_ids; [exact Hi|]. by eapply ids_insert_same.
  - apply list_lookup_insert_eq. by eapply lookup_lt_Some.
Qed.

Lemma put_then_get_witness :
  get_item (put_item initial_items "2" (Some body_D2)).1 "2" =
    ((put_item initial_items "2" (Some body_D2)).1,
     Response 200 (Json_item (Item 2 (JStr "Item B") (JStr "D2")))).
Proof.
  apply (put_then_get initial_items "2" (Some body_D2)
           (Item 2 (JStr "Item B") (JStr "D2"))).
  reflexivity.
Defined.

(** X3.  Sending the same PUT a second time changes nothing: the store
    and the answer are those of the first. *)
Theorem put_item_idempotent items param body :
  put_item (put_item items param body).1 param body =
    put_item items param body.
Proof.
  destruct (put_item_cases items param body)
    as [[_ E]|[(i & old & b & -> & Hi & Hold & E)|(i & old & _ & _ & _ & E)]];
    rewrite E; simpl; [done| |done].
  set (u := Item _ _ _) in *.
  rewrite (put_item_found _ _ _ i u).
  - simpl. rewrite !js_or_idem. fold u. by rewrite list_insert_insert_eq.
  - erewrite findIndex_same_ids; [exact Hi|]. by eapply ids_insert_same.
  - apply list_lookup_insert_eq. by eapply lookup_lt_Some.
Qed.

(** X4.  A PUT whose body has neither a truthy name nor a truthy
    description returns the store unchanged and, when the id is present,
    answers 200 with the item as it was.  A PUT without body also
    returns the store unchanged, but when the id is present it is
    answered 500. *)
Theorem put_item_nothing_to_merge items param body :
  truthy (body_name body) = false → truthy (body_description body) = false →
  (put_item items param (Some body)).1 = items ∧
  (put_item items param None).1 = items ∧
  ∀ old, find items (parseInt param) = Some old →
         (put_item items param (Some body)).2 =
           Response 200 (Json_item old) ∧
         (put_item items param None).2 = Response 500 Error_page.
Proof.
  intros Hn Hd.
  destruct (findIndex items (parseInt param)) as [i|] eqn:Hi.
  - destruct (findIndex_Some _ _ _ Hi) as (old & Hold & Hf & _).
    rewrite (put_item_found _ _ body _ _ Hi Hold).
    rewrite (put_item_found_no_body _ _ _ _ Hi Hold). simpl.
    rewrite !js_or_falsy by done.
    replace (Item (id old) (name old) (description old)) with old
      by by destruct old.
    split; [by apply list_insert_id|]. split; [done|].
    intros old' Hf'. split; [congruence|done].
  - apply findIndex_None in Hi. rewrite !put_item_absent by done. simpl.
    split; [done|]. split; [done|].
    intros old Hf. apply find_None in Hi. congruence.
Qed.

Lemma put_item_nothing_to_merge_witness :
  (put_item initial_items "2" (Some body_empty)).1 = initial_items ∧
  (put_item initial_items "2" None).1 = initial_items ∧
  ∀ old, find initial_items (parseInt "2") = Some old →
         (put_item initial_items "2" (Some body_empty)).2 =
           Response 200 (Json_item old) ∧
         (put_item initial_items "2" None).2 = Response 500 Error_page.
Proof.
  apply (put_item_nothing_to_merge initial_items "2" body_empty); reflexivity.
Defined.

(** ** When a request succeeds *)

Lemma absent_or_present items n :
  absent items n ∨ ∃ k, n = Int k ∧ k ∈ ids items.
Proof.
  destruct n as [|k]; [left; by intros k|].
  destruct (decide (k ∈ ids items)) as [Hk|Hk]; [right; eauto|].
  left. intros k' E. by simplify_eq.
Qed.

Lemma absent_not_present items n k :
  absent items n → n = Int k → k ∈ ids items → False.
Proof. intros Ha E Hk. by apply (Ha k). Qed.

(** X5.  GET by id answers 200 and DELETE answers 204 exactly when the
    path parameter parses to an integer that is the id of an item of the
    store.  PUT answers 200 exactly when moreover the request has a
    body, and 500 exactly when the id is present and the request has no
    body. *)
Theorem success_iff_present items param body :
  (status (get_item items param).2 = 200 ↔
     ∃ k, parseInt param = Int k ∧ k ∈ ids items) ∧
  (status (put_item items param body).2 = 200 ↔
     is_Some body ∧ ∃ k, parseInt param = Int k ∧ k ∈ ids items) ∧
  (status (put_item items param body).2 = 500 ↔
     body = None ∧ ∃ k, parseInt param = Int k ∧ k ∈ ids items) ∧
  (status (delete_item items param).2 = 204 ↔
     ∃ k, parseInt param = Int k ∧ k ∈ ids items).
Proof.
  destruct (absent_or_present items (parseInt param)) as [Ha|(k & Hp & Hk)].
  - rewrite get_item_absent, put_item_absent, delete_item_absent by done.
    simpl. repeat split; try done.
    + intros (k & Hp & Hk). destruct (absent_not_present _ _ _ Ha Hp Hk).
    + intros [_ (k & Hp & Hk)].
      destruct (absent_not_present _ _ _ Ha Hp Hk).
    + intros [_ (k & Hp & Hk)].
      destruct (absent_not_present _ _ _ Ha Hp Hk).
    + intros (k & Hp & Hk). destruct (absent_not_present _ _ _ Ha Hp Hk).
  - destruct (find_present _ _ Hk) as (old & Hf & _). rewrite <- Hp in Hf.
    rewrite (get_item_found _ _ _ Hf), (delete_item_present _ _ _ Hp Hk).
    destruct (put_item_cases items param body)
      as [[Ha _]|[(i & o & b & -> & _ & _ & ->)|(i & o & -> & _ & _ & ->)]].
    + destruct (absent_not_present _ _ _ Ha Hp Hk).
    + simpl. repeat split; eauto; try done. by intros [? _].
    + simpl. repeat split; eauto; try done. by intros [[? ?] _].
Qed.

(** X6.  A server error is answered in exactly two cases: a POST without
    body, and a PUT without body on an id that is in the store; the store
    is then returned as it was.  Otherwise the listing answers 200, GET
    by id and PUT answer 200 or 404, POST answers 201 or 400 and DELETE
    answers 204 or 404. *)
Theorem handle_status items r :
  let st := status (handle items r).2 in
  (st = 500 ↔
     r = Post None ∨
     ∃ param k, r = Put param None ∧ parseInt param = Int k ∧ k ∈ ids items) ∧
  (st ≠ 500 ∨ (handle items r).1 = items) ∧
  match r with
  | GetAll => st = 200
  | GetOne _ => st = 200 ∨ st = 404
  | Post (Some _) => st = 201 ∨ st = 400
  | Post None => st = 500
  | Put _ (Some _) => st = 200 ∨ st = 404
  | Put _ None => st = 404 ∨ st = 500
  | Delete _ => st = 204 ∨ st = 404
  end.
Proof.
  destruct r as [|param|body|param body|param]; simpl.
  - split; [|split; [by left|done]].
    split; [done|]. by intros [?|(? & ? & ? & _)].
  - destruct (get_item_status items param) as [E|E]; rewrite E.
    + split; [|split; [by left|by left]].
      split; [done|]. by intros [?|(? & ? & ? & _)].
    + split; [|split; [by left|by right]].
      split; [done|]. by intros [?|(? & ? & ? & _)].
  - destruct body as [body|].
    + assert (Hs : status (post_item items (Some body)).2 = 201 ∨
                   status (post_item items (Some body)).2 = 400).
      { unfold post_item. destruct (body_name body) as [v|]; [|by right].
        destruct (to_boolean v); [by left|by right]. }
      split; [|split; [left; lia|done]].
      split; [intros E; lia|]. by intros [?|(? & ? & ? & _)].
    + simpl. split; [|split; [by right|done]]. split; [by left|done].
  - destruct (absent_or_present items (parseInt param)) as [Ha|(k & Hp & Hk)].
    + rewrite put_item_absent by done. simpl.
      split; [|split; [by left|destruct body; [by right|by left]]].
      split; [done|]. intros [?|(p & k & E & Hp & Hk)]; [done|].
      simplify_eq. destruct (absent_not_present _ _ _ Ha Hp Hk).
    + destruct (put_item_cases items param body)
        as [[Ha _]|[(i & o & b & -> & _ & _ & ->)|(i & o & -> & _ & _ & ->)]].
      * destruct (absent_not_present _ _ _ Ha Hp Hk).
      * simpl. split; [|split; [by left|by left]].
        split; [done|]. by intros [?|(? & ? & ? & _)].
      * simpl. split; [|split; [by right|by right]].
        split; [|done]. intros _. right. by exists param, k.
  - assert (Hs : status (delete_item items param).2 = 204 ∨
                 status (delete_item items param).2 = 404)
      by (unfold delete_item; case_decide; [by left|by right]).
    split; [|split; [left; lia|done]].
    split; [intros E; lia|]. by intros [?|(? & ? & ? & _)].
Qed.

(** ** Request sequences *)

Lemma handle_read items r : is_read r = true → (handle items r).1 = items.
Proof.
  destruct r as [|param| | |]; try done; intros _; simpl.
  unfold get_item. by destruct (find _ _).
Qed.

(** X7.  The GET requests of a sequence have no influence on the store:
    dropping them all leaves the final store the same. *)
Theorem run_without_reads items rs :
  run items (filter (λ r, is_read r = false) rs) = run items rs.
Proof.
  revert items. induction rs as [|r rs IH]; intros items; [done|].
  destruct (is_read r) eqn:E.
  - rewrite filter_cons_False by (rewrite E; done).
    simpl. rewrite (handle_read _ _ E). apply IH.
  - rewrite filter_cons_True by done. simpl. apply IH.
Qed.

Lemma js_or_truthy_r a b : to_boolean b = true → to_boolean (js_or a b) = true.
Proof.
  intros Hb. destruct a as [v|]; simpl; [|done].
  by destruct (to_boolean v) eqn:E.
Qed.

Lemma generateId_positive items :
  Forall well_formed items → 1 ≤ generateId items.
Proof.
  intros H. destruct (next_id_generateId items) as [[_ ->]|(m & [Hin _] & ->)].
  - done.
  - apply list_elem_of_fmap in Hin as (x & -> & Hx).
    rewrite Forall_forall in H. destruct (H x Hx) as [? _]. lia.
Qed.

Lemma handle_well_formed items r :
  Forall well_formed items → Forall well_formed (handle items r).1.
Proof.
  intros H. destruct r as [|param|body|param body|param]; simpl.
  - done.
  - unfold get_item. by destruct (find _ _).
  - unfold post_item. destruct body as [body|]; [|done].
    destruct (body_name body) as [v|]; [|done].
    destruct (to_boolean v) eqn:Hv; [|done]. simpl.
    apply Forall_app. split; [done|]. apply Forall_singleton.
    split; [by apply generateId_positive|]. split; [done|].
    by apply js_or_truthy_r.
  - destruct (put_item_cases items param body)
      as [[_ ->]|[(i & old & b & _ & _ & Hold & ->)|(i & old & _ & _ & _ & ->)]];
      [done| |done]. simpl.
    apply Forall_insert; [done|].
    rewrite Forall_lookup in H. destruct (H _ _ Hold) as (? & ? & ?).
    split; [done|]. split; by apply js_or_truthy_r.
  - rewrite delete_item_store. apply Forall_forall. intros x Hx.
    apply list_elem_of_filter in Hx as [_ Hx].
    rewrite Forall_forall in H. by apply H.
Qed.

Lemma run_well_formed rs items :
  Forall well_formed items → Forall well_formed (run items rs).
Proof.
  revert items. induction rs as [|r rs IH]; intros items H; [done|].
  apply (IH (handle items r).1). by apply handle_well_formed.
Qed.

Lemma initial_items_well_formed : Forall well_formed initial_items.
Proof.
  unfold initial_items.
  repeat (apply Forall_cons; split;
          [split; [simpl; lia|split; reflexivity]|]).
  apply Forall_nil_2.
Qed.

(** X8.  Whatever requests the server has handled since it started,
    every item of the store has an id of at least 1, a truthy name and
    a truthy description. *)
Theorem reachable_items_well_formed rs :
  Forall well_formed (run initial_items rs).
Proof. apply run_well_formed, initial_items_well_formed. Qed.

Lemma reachable_ids_positive rs k : k ∈ ids (run initial_items rs) → 1 ≤ k.
Proof.
  intros Hk. apply list_elem_of_fmap in Hk as (x & -> & Hx).
  pose proof (run_well_formed rs _ initial_items_well_formed) as H.
  rewrite Forall_forall in H. by destruct (H x Hx).
Qed.

(** X9.  Whatever requests the server has handled since it started, a
    path parameter that parses to zero or to a negative integer names no
    item: GET, PUT and DELETE on it answer 404 and return the store as it
    is. *)
Theorem nonpositive_id_not_found rs param k body :
  parseInt param = Int k → k ≤ 0 →
  let items := run initial_items rs in
  get_item items param = (items, Response 404 (Text "Item not found")) ∧
  put_item items param body = (items, Response 404 (Text "Item not found")) ∧
  delete_item items param = (items, Response 404 (Text "Item not found")).
Proof.
  intros Hp Hk items.
  assert (Ha : absent items (parseInt param)).
  { intros k' E Hin. apply reachable_ids_positive in Hin.
    rewrite Hp in E. simplify_eq. lia. }
  split; [by apply get_item_absent|].
  split; [by apply put_item_absent|by apply delete_item_absent].
Qed.

Lemma nonpositive_id_not_found_witness :
  let items := run initial_items [Post (Some body_X)] in
  get_item items "-3" = (items, Response 404 (Text "Item not found")) ∧
  put_item items "-3" (Some body_D2) =
    (items, Response 404 (Text "Item not found")) ∧
  delete_item items "-3" = (items, Response 404 (Text "Item not found")).
Proof.
  apply (nonpositive_id_not_found [Post (Some body_X)] "-3" (-3)
           (Some body_D2)).
  - reflexivity.
  - lia.
Defined.

(** ** Successive creations and deletions *)

Lemma generateId_snoc items x :
  id x = generateId items → generateId (items ++ [x]) = generateId items + 1.
Proof.
  intros Hx. apply (next_id_unique (ids (items ++ [x]))).
  - apply next_id_generateId.
  - right. exists (id x). rewrite ids_app. split; [|lia]. split.
    + apply elem_of_app. right. simpl. left.
    + intros y Hy. apply elem_of_app in Hy as [Hy|Hy].
      * apply generateId_above in Hy. lia.
      * simpl in Hy. apply list_elem_of_singleton in Hy. lia.
Qed.

(** X10.  Two POSTs in a row that both create an item give the second
    item the id of the first plus one. *)
Theorem consecutive_creates items body1 body2 it1 :
  (post_item items body1).2 = Response 201 (Json_item it1) →
  truthy (body_name body2) = true →
  ∃ it2,
    (post_item (post_item items body1).1 (Some body2)).2 =
      Response 201 (Json_item it2) ∧
    id it2 = id it1 + 1.
Proof.
  intros Hc Hn. apply post_item_created in Hc as [Hid ->].
  destruct (body_name body2) as [v|] eqn:E; [|done]. simpl in Hn.
  eexists. rewrite (post_item_truthy _ _ v E Hn). simpl.
  split; [done|]. rewrite generateId_snoc by done. simpl. lia.
Qed.

Lemma consecutive_creates_witness :
  ∃ it2,
    (post_item (post_item initial_items (Some body_X)).1 (Some body_X)).2 =
      Response 201 (Json_item it2) ∧
    id it2 = id (Item 4 (JStr "X") (JStr "No description provided")) + 1.
Proof.
  apply (consecutive_creates initial_items (Some body_X) body_X
           (Item 4 (JStr "X") (JStr "No description provided")));
    reflexivity.
Defined.

(** X11.  A POST that created an item followed by a DELETE on a
    parameter that parses to the new id answers 204 and gives back the
    store as it was before the POST. *)
Theorem post_then_delete items body newItem param :
  (post_item items body).2 = Response 201 (Json_item newItem) →
  parseInt param = Int (id newItem) →
  delete_item (post_item items body).1 param = (items, Response 204 Empty).
Proof.
  intros Hc Hp. apply post_item_created in Hc as [Hid ->].
  rewrite (delete_item_present _ _ (id newItem)); [|done|].
  - rewrite filter_app, filter_absent, filter_singleton_False.
    + by rewrite app_nil_r.
    + done.
    + intros H. by apply H.
    + intros k E Hk. simplify_eq. rewrite Hid in Hk.
      by apply generateId_fresh in Hk.
  - rewrite ids_app. apply elem_of_app. right. simpl. left.
Qed.

Lemma post_then_delete_witness :
  delete_item (post_item initial_items (Some body_X)).1 "4" =
    (initial_items, Response 204 Empty).
Proof.
  apply (post_then_delete initial_items (Some body_X)
           (Item 4 (JStr "X") (JStr "No description provided")) "4");
    reflexivity.
Defined.

(** X12.  After a DELETE, whatever it answered, the same parameter names
    no item: GET, PUT and DELETE on it answer 404 and return the store as
    it is. *)
Theorem delete_then_not_found items param body :
  let items' := (delete_item items param).1 in
  get_item items' param = (items', Response 404 (Text "Item not found")) ∧
  put_item items' param body =
    (items', Response 404 (Text "Item not found")) ∧
  delete_item items' param = (items', Response 404 (Text "Item not found")).
Proof.
  intros items'.
  assert (Ha : absent items' (parseInt param)).
  { unfold items'. rewrite delete_item_store. apply absent_after_filter. }
  split; [by apply get_item_absent|].
  split; [by apply put_item_absent|by apply delete_item_absent].
Qed.

(** X13.  Two DELETEs leave the same store in either order. *)
Theorem delete_item_commute items param1 param2 :
  (delete_item (delete_item items param1).1 param2).1 =
  (delete_item (delete_item items param2).1 param1).1.
Proof.
  rewrite !delete_item_store, !list_filter_filter.
  apply list_filter_iff. intros x. tauto.
Qed.

(** X14.  POST answers 201 exactly when the request has a body whose
    name is truthy, and then the store grows by one item.  It answers
    400 exactly when the request has a body whose name is absent or
    falsy (null, false, 0 or the empty text), and 500 exactly when the
    request has no body; in both cases the store is returned as it
    was. *)
Theorem post_item_created_iff items req_body :
  (status (post_item items req_body).2 = 201 ↔
     ∃ body, req_body = Some body ∧ truthy (body_name body) = true) ∧
  (status (post_item items req_body).2 = 400 ↔
     ∃ body, req_body = Some body ∧ truthy (body_name body) = false) ∧
  (status (post_item items req_body).2 = 500 ↔ req_body = None) ∧
  ((status (post_item items req_body).2 = 201 ∧
    length (post_item items req_body).1 = S (length items)) ∨
   (status (post_item items req_body).2 ≠ 201 ∧
    (post_item items req_body).1 = items)).
Proof.
  destruct req_body as [body|].
  - destruct (truthy (body_name body)) eqn:Hn.
    + destruct (body_name body) as [v|] eqn:E; [|done]. simpl in Hn.
      rewrite (post_item_truthy _ _ v E Hn). simpl.
      split; [split; [intros _; exists body; split; [done|]; by rewrite E|done]|].
      split; [split; [done|]; intros (b & Hb & Hf); simplify_eq;
              rewrite E in Hf; simpl in Hf; congruence|].
      split; [done|]. left. split; [done|]. rewrite length_app. simpl. lia.
    + rewrite (post_item_falsy _ _ Hn). simpl.
      split; [split; [done|]; intros (b & Hb & Hf); simplify_eq; congruence|].
      split; [split; [intros _; by exists body|done]|].
      split; [done|]. by right.
  - simpl.
    split; [split; [done|]; by intros (b & Hb & _)|].
    split; [split; [done|]; by intros (b & Hb & _)|].
    split; [done|]. by right.
Qed.

(** ** What a request leaves alone *)

Lemma find_cons x items n :
  find (x :: items) n =
    if decide (strict_eq (id x) n) then Some x else find items n.
Proof.
  unfold find. simpl. case_decide; [done|].
  by destruct (list_find _ items) as [[i y]|].
Qed.

Lemma find_app_l items1 items2 n x :
  find items1 n = Some x → find (items1 ++ items2) n = Some x.
Proof.
  unfold find. intros H.
  destruct (list_find _ items1) as [[i y]|] eqn:E; simplify_eq/=.
  by rewrite (list_find_app_l _ _ _ _ _ E).
Qed.

Lemma find_filter_other items n m :
  n ≠ m → find (filter (λ i, ¬ strict_eq (id i) m) items) n = find items n.
Proof.
  intros Hne. induction items as [|x items IH]; [done|].
  rewrite find_cons. destruct (decide (strict_eq (id x) m)) as [Hm|Hm].
  - rewrite filter_cons_False by (intros H; by apply H).
    rewrite decide_False; [done|]. unfold strict_eq in *. congruence.
  - rewrite filter_cons_True by done. rewrite find_cons. by rewrite IH.
Qed.

Lemma get_item_same_find items1 items2 param :
  find items1 (parseInt param) = find items2 (parseInt param) →
  (get_item items1 param).2 = (get_item items2 param).2.
Proof. unfold get_item. intros ->. by destruct (find _ _). Qed.

(** X15.  A POST does not disturb the items already there: a GET that
    answered 200 with some item before the POST answers 200 with the same
    item after it, whatever the POST did. *)
Theorem post_keeps_existing items body param x :
  find items (parseInt param) = Some x →
  (get_item items param).2 = Response 200 (Json_item x) ∧
  (get_item (post_item items body).1 param).2 = Response 200 (Json_item x).
Proof.
  intros Hf. split; [by rewrite (get_item_found _ _ _ Hf)|].
  unfold post_item. destruct body as [body|].
  - destruct (body_name body) as [v|].
    + destruct (to_boolean v); simpl.
      * by rewrite (get_item_found _ _ x) by by apply find_app_l.
      * by rewrite (get_item_found _ _ _ Hf).
    + simpl. by rewrite (get_item_found _ _ _ Hf).
  - simpl. by rewrite (get_item_found _ _ _ Hf).
Qed.

Lemma post_keeps_existing_witness :
  (get_item initial_items "2").2 =
    Response 200
      (Json_item (Item 2 (JStr "Item B") (JStr "Description for Item B"))) ∧
  (get_item (post_item initial_items (Some body_X)).1 "2").2 =
    Response 200
      (Json_item (Item 2 (JStr "Item B") (JStr "Description for Item B"))).
Proof.
  apply (post_keeps_existing initial_items (Some body_X) "2"
           (Item 2 (JStr "Item B") (JStr "Description for Item B"))).
  reflexivity.
Defined.

(** X16.  A PUT does not disturb the items with other ids: when two
    parameters parse to different values, a GET on the second gives the
    same answer after a PUT on the first as before it. *)
Theorem put_keeps_others items param body other :
  parseInt other ≠ parseInt param →
  (get_item (put_item items param body).1 other).2 =
    (get_item items other).2.
Proof.
  intros Hne.
  destruct (put_item_cases items param body)
    as [[_ ->]|[(i & old & b & _ & Hi & Hold & ->)|(i & old & _ & _ & _ & ->)]];
    [done| |done]. simpl.
  set (u := Item _ _ _). apply get_item_same_find.
  assert (Hids : ids (<[i := u]> items) = ids items)
    by by eapply ids_insert_same.
  destruct (findIndex items (parseInt other)) as [j|] eqn:Hj.
  - destruct (findIndex_Some _ _ _ Hj) as (y & Hy & Hfy & Ey).
    rewrite Hfy. eapply find_lookup.
    + by rewrite (findIndex_same_ids _ _ _ Hids).
    + rewrite list_lookup_insert_ne; [done|]. intros <-.
      destruct (findIndex_Some _ _ _ Hi) as (o & Ho & _ & Eo).
      congruence.
  - assert (Hn : findIndex (<[i := u]> items) (parseInt other) = None)
      by by rewrite (findIndex_same_ids _ _ _ Hids).
    apply findIndex_None, find_None in Hj, Hn. congruence.
Qed.

Lemma put_keeps_others_witness :
  (get_item (put_item initial_items "1" (Some body_D2)).1 "2").2 =
    (get_item initial_items "2").2.
Proof.
  apply (put_keeps_others initial_items "1" (Some body_D2) "2").
  discriminate.
Defined.

(** X17.  A DELETE does not disturb the items with other ids: when two
    parameters parse to different values, a GET on the second gives the
    same answer after a DELETE on the first as before it. *)
Theorem delete_keeps_others items param other :
  parseInt other ≠ parseInt param →
  (get_item (delete_item items param).1 other).2 =
    (get_item items other).2.
Proof.
  intros Hne. apply get_item_same_find. rewrite delete_item_store.
  by apply find_filter_other.
Qed.

Lemma delete_keeps_others_witness :
  (get_item (delete_item initial_items "1").1 "2").2 =
    (get_item initial_items "2").2.
Proof.
  apply (delete_keeps_others initial_items "1" "2"). discriminate.
Defined.

(** X18.  Only the keys name and description of a body are read: adding
    or changing any other key (an id, for one) changes neither what POST
    does nor what PUT does. *)
Theorem other_body_keys_ignored items param body (key : string) v :
  key ≠ "name"%string → key ≠ "description"%string →
  post_item items (Some (<[key := v]> body)) = post_item items (Some body) ∧
  put_item items param (Some (<[key := v]> body)) =
    put_item items param (Some body).
Proof.
  intros Hn Hd. unfold post_item, put_item, body_name, body_description.
  by rewrite !lookup_insert_ne by done.
Qed.

Lemma other_body_keys_ignored_witness :
  post_item initial_items (Some (<["id"%string := JNum 99]> body_X)) =
    post_item initial_items (Some body_X) ∧
  put_item initial_items "1" (Some (<["id"%string := JNum 99]> body_X)) =
    put_item initial_items "1" (Some body_X).
Proof.
  apply (other_body_keys_ignored initial_items "1" body_X "id" (JNum 99));
    discriminate.
Defined.

(** ** More on path parameters *)

Lemma trim_start_white ws s :
  all_white ws = true → trim_start (ws +:+ s) = trim_start s.
Proof.
  induction ws as [|c ws IH]; [done|]. simpl. intros H.
  apply andb_true_iff in H as [Hc Hws].
  change (String c ws +:+ s) with (String c (ws +:+ s)). simpl.
  rewrite Hc. by apply IH.
Qed.

(** X19.  White space in front of a path parameter is skipped: the
    parameter parses to the same value with it as without it, so GET,
    PUT and DELETE act the same. *)
Theorem leading_white_space_skipped ws param items body :
  all_white ws = true →
  parseInt (ws +:+ param) = parseInt param ∧
  get_item items (ws +:+ param) = get_item items param ∧
  put_item items (ws +:+ param) body = put_item items param body ∧
  delete_item items (ws +:+ param) = delete_item items param.
Proof.
  intros Hws.
  assert (E : parseInt (ws +:+ param) = parseInt param)
    by (unfold parseInt; by rewrite trim_start_white).
  unfold get_item, put_item, delete_item. by rewrite E.
Qed.

Lemma leading_white_space_skipped_witness :
  parseInt (" " +:+ "2") = parseInt "2" ∧
  get_item initial_items (" " +:+ "2") = get_item initial_items "2" ∧
  put_item initial_items (" " +:+ "2") (Some body_D2) =
    put_item initial_items "2" (Some body_D2) ∧
  delete_item initial_items (" " +:+ "2") = delete_item initial_items "2".
Proof.
  apply (leading_white_space_skipped " " "2" initial_items (Some body_D2)).
  reflexivity.
Defined.

Lemma parse_digits_all_digits s acc :
  all_digits s = true → 0 ≤ default 0 acc → (s ≠ EmptyString ∨ is_Some acc) →
  ∃ k, 0 ≤ k ∧ parse_digits 10 s acc = Some k.
Proof.
  revert acc. induction s as [|c s IH]; intros acc Hs Hacc Hne; simpl.
  - destruct Hne as [?|[k ->]]; [done|]. exists k. by simpl in Hacc.
  - simpl in Hs. apply andb_true_iff in Hs as [Hc Hs].
    rewrite digit_val_digit by done. apply IH; [done| |right; eauto].
    simpl. unfold is_digit in Hc. apply andb_true_iff in Hc as [H1 H2].
    apply Z.leb_le in H1, H2. lia.
Qed.

Lemma parse_numeric ds :
  is_numeric ds = true →
  strip_hex_prefix ds = (10, ds) ∧
  ∃ k, 0 ≤ k ∧ parse_digits 10 ds None = Some k.
Proof.
  unfold is_numeric. destruct ds as [|c ds]; [done|]. simpl. intros H.
  pose proof H as H'. apply andb_true_iff in H' as [Hc Hds]. split.
  - apply strip_hex_prefix_digit; [done|].
    destruct ds as [|d ds]; [done|]. simpl in *.
    apply andb_true_iff in Hds as [Hd _]. by rewrite is_digit_not_x.
  - apply (parse_digits_all_digits (String c ds) None); [done..|by left].
Qed.

Lemma is_numeric_spec s :
  is_numeric s = true ↔ s ≠ EmptyString ∧ all_digits s = true.
Proof.
  unfold is_numeric. destruct s as [|c s]; simpl.
  { split; [done|]. by intros [Hne _]. }
  split; [by intros ->|]. by intros [_ ->].
Qed.

Lemma parse_digits_bound s acc k (n : nat) :
  all_digits s = true → 0 ≤ default 0 acc < 10 ^ Z.of_nat n →
  (s ≠ EmptyString ∨ is_Some acc) →
  parse_digits 10 s acc = Some k →
  0 ≤ k < 10 ^ Z.of_nat (n + String.length s).
Proof.
  revert acc n. induction s as [|c s IH]; intros acc n Hs Hacc Hne; simpl.
  - intros ->. simpl in Hacc. by rewrite Nat.add_0_r.
  - simpl in Hs. apply andb_true_iff in Hs as [Hc Hs].
    rewrite digit_val_digit by done. intros Hk.
    rewrite Nat.add_succ_r. apply (IH _ (S n)) in Hk; [done|done| |right; eauto].
    simpl default. rewrite Nat2Z.inj_succ, Z.pow_succ_r by lia.
    unfold is_digit in Hc. apply andb_true_iff in Hc as [H1 H2].
    apply Z.leb_le in H1, H2. lia.
Qed.

(** X20.  A parameter made of at most 15 decimal digits and nothing else
    parses to a non-negative integer below 10^15, a range in which every
    integer is a double; with a plus sign in front it parses to the same
    integer and with a minus sign in front to its negation. *)
Theorem numeric_param_value ds :
  is_numeric ds = true → (String.length ds ≤ 15)%nat →
  ∃ k, 0 ≤ k < 10 ^ 15 ∧
    parseInt ds = Int k ∧
    parseInt (String "+" ds) = Int k ∧
    parseInt (String "-" ds) = Int (- k).
Proof.
  intros Hds Hlen. destruct (parse_numeric ds Hds) as (Hx & k & Hk & Hp).
  exists k. split.
  { apply is_numeric_spec in Hds as [Hne Hall].
    pose proof (parse_digits_bound ds None k 0 Hall) as Hb.
    simpl in Hb. destruct Hb as [_ Hb]; [lia|by left|done|].
    split; [done|]. eapply Z.lt_le_trans; [exact Hb|].
    apply Z.pow_le_mono_r; lia. }
  assert (Hc : ∃ c s, ds = String c s ∧ is_digit c = true).
  { unfold is_numeric in Hds. destruct ds as [|c s]; [done|]. simpl in Hds.
    apply andb_true_iff in Hds as [Hc _]. eauto. }
  destruct Hc as (c & s & -> & Hc).
  split; [|split].
  - unfold parseInt. rewrite trim_start_digit, strip_sign_digit by done.
    cbv beta iota. rewrite Hx, Hp. f_equal; lia.
  - unfold parseInt. change (trim_start (String "+" (String c s)))
      with (String "+" (String c s)).
    change (strip_sign (String "+" (String c s))) with (1, String c s).
    cbv beta iota. rewrite Hx, Hp. f_equal; lia.
  - unfold parseInt. change (trim_start (String "-" (String c s)))
      with (String "-" (String c s)).
    change (strip_sign (String "-" (String c s))) with (-1, String c s).
    cbv beta iota. rewrite Hx, Hp. f_equal; lia.
Qed.

Lemma numeric_param_value_witness :
  ∃ k, 0 ≤ k < 10 ^ 15 ∧
    parseInt "42" = Int k ∧
    parseInt (String "+" "42") = Int k ∧
    parseInt (String "-" "42") = Int (- k).
Proof.
  apply (numeric_param_value "42"); [reflexivity|]. simpl. lia.
Defined.

(** ** Every item can be addressed *)

Lemma digit_char_spec r :
  0 ≤ r ≤ 9 → is_digit (digit_char r) = true ∧ code (digit_char r) = 48 + r.
Proof.
  intros Hr.
  assert (r = 0 ∨ r = 1 ∨ r = 2 ∨ r = 3 ∨ r = 4 ∨
          r = 5 ∨ r = 6 ∨ r = 7 ∨ r = 8 ∨ r = 9) as H by lia.
  destruct H as [->|[->|[->|[->|[->|[->|[->|[->|[->| ->]]]]]]]]];
    by split.
Qed.

Lemma all_digits_snoc s c :
  all_digits s = true → is_digit c = true →
  all_digits (s +:+ String c EmptyString) = true.
Proof.
  intros Hs Hc. induction s as [|a s IH]; simpl.
  - by rewrite Hc.
  - simpl in Hs. apply andb_true_iff in Hs as [Ha Hs].
    change (String a s +:+ String c EmptyString)
      with (String a (s +:+ String c EmptyString)).
    simpl. rewrite Ha. by apply IH.
Qed.

Lemma parse_digits_snoc s c acc :
  all_digits s = true → is_digit c = true →
  parse_digits 10 (s +:+ String c EmptyString) acc =
    Some (10 * default 0 (parse_digits 10 s acc) + (code c - 48)).
Proof.
  revert acc. induction s as [|a s IH]; intros acc Hs Hc.
  - simpl. by rewrite digit_val_digit.
  - simpl in Hs. apply andb_true_iff in Hs as [Ha Hs].
    change (String a s +:+ String c EmptyString)
      with (String a (s +:+ String c EmptyString)).
    simpl. rewrite digit_val_digit by done. by apply IH.
Qed.

Lemma decimal_exists (n : nat) k :
  0 ≤ k ≤ Z.of_nat n →
  ∃ s, is_numeric s = true ∧ parse_digits 10 s None = Some k.
Proof.
  revert k. induction n as [|n IH]; intros k Hk.
  - exists "0"%string. assert (k = 0) as -> by lia. by split.
  - destruct (decide (k < 10)) as [Hlt|Hge].
    + destruct (digit_char_spec k ltac:(lia)) as [Hd Hc].
      exists (String (digit_char k) EmptyString). split.
      * apply is_numeric_spec. split; [done|]. simpl. by rewrite Hd.
      * simpl. rewrite digit_val_digit by done. simpl. f_equal. lia.
    + destruct (IH (k / 10)) as (s & Hs & Hp).
      { split; [apply Z.div_pos; lia|].
        assert (k / 10 < k) by (apply Z.div_lt; lia). lia. }
      apply is_numeric_spec in Hs as [Hne Hs].
      assert (0 ≤ k `mod` 10 ≤ 9) as Hr
        by (pose proof (Z.mod_pos_bound k 10); lia).
      destruct (digit_char_spec _ Hr) as [Hd Hc].
      exists (s +:+ String (digit_char (k `mod` 10)) EmptyString). split.
      * apply is_numeric_spec. split; [by destruct s|].
        by apply all_digits_snoc.
      * rewrite parse_digits_snoc, Hp by done. simpl. f_equal.
        pose proof (Z.div_mod k 10). lia.
Qed.

Lemma parseInt_numeric ds k :
  is_numeric ds = true → parse_digits 10 ds None = Some k →
  parseInt ds = Int k.
Proof.
  intros Hds Hp. destruct (parse_numeric ds Hds) as (Hx & _).
  unfold is_numeric in Hds. destruct ds as [|c s]; [done|]. simpl in Hds.
  apply andb_true_iff in Hds as [Hc _].
  unfold parseInt. rewrite trim_start_digit, strip_sign_digit by done.
  cbv beta iota. rewrite Hx, Hp. f_equal; lia.
Qed.

Lemma numeric_param_exists k :
  0 ≤ k → ∃ param, is_numeric param = true ∧ parseInt param = Int k.
Proof.
  intros Hk. destruct (decimal_exists (Z.to_nat k) k) as (s & Hs & Hp);
    [lia|].
  exists s. split; [done|]. by apply parseInt_numeric.
Qed.

Lemma find_NoDup items x :
  NoDup (ids items) → x ∈ items → find items (Int (id x)) = Some x.
Proof.
  unfold ids. induction items as [|y items IH]; intros Hnd Hx.
  - by apply elem_of_nil in Hx.
  - simpl in Hnd. apply NoDup_cons in Hnd as [Hy Hnd]. rewrite find_cons.
    apply elem_of_cons in Hx as [->|Hx].
    + by rewrite decide_True.
    + rewrite decide_False; [by apply IH|]. intros E.
      unfold strict_eq in E. injection E as E. apply Hy. rewrite <- E.
      by apply list_elem_of_fmap_2.
Qed.

(** X21.  Whatever requests the server has handled since it started,
    every item of the store can be fetched: there is a parameter of
    decimal digits on which GET answers 200 with exactly that item. *)
Theorem reachable_item_retrievable rs x :
  x ∈ run initial_items rs →
  ∃ param,
    is_numeric param = true ∧
    get_item (run initial_items rs) param =
      (run initial_items rs, Response 200 (Json_item x)).
Proof.
  intros Hx.
  assert (Hpos : 1 ≤ id x)
    by (apply (reachable_ids_positive rs); by apply list_elem_of_fmap_2).
  destruct (numeric_param_exists (id x)) as (param & Hn & Hp); [lia|].
  exists param. split; [done|]. apply get_item_found. rewrite Hp.
  apply find_NoDup; [|done]. apply run_NoDup, initial_items_NoDup.
Qed.

Lemma reachable_item_retrievable_witness :
  ∃ param,
    is_numeric param = true ∧
    get_item (run initial_items [Post (Some body_X)]) param =
      (run initial_items [Post (Some body_X)],
       Response 200
         (Json_item (Item 4 (JStr "X") (JStr "No description provided")))).
Proof.
  apply (reachable_item_retrievable [Post (Some body_X)]
           (Item 4 (JStr "X") (JStr "No description provided"))).
  simpl. do 3 right. left.
Defined.

(** ** Further bounds *)

(** X22.  A DELETE neither reorders nor alters what it keeps: the store
    it returns is the old store with some items left out, and none of the
    kept items has the id that the parameter parses to. *)
Theorem delete_item_sublist items param :
  (delete_item items param).1 `sublist_of` items ∧
  absent (delete_item items param).1 (parseInt param) ∧
  ∀ x, x ∈ items → ¬ strict_eq (id x) (parseInt param) →
       x ∈ (delete_item items param).1.
Proof.
  rewrite delete_item_store. split; [apply sublist_filter|].
  split; [apply absent_after_filter|].
  intros x Hx Hne. by apply list_elem_of_filter.
Qed.

Lemma handle_ids_bound items r b :
  0 ≤ b → (∀ k, k ∈ ids items → k ≤ b) →
  ∀ k, k ∈ ids (handle items r).1 → k ≤ b + 1.
Proof.
  intros Hb H k. destruct r as [|param|body|param body|param]; simpl.
  - intros Hk. specialize (H _ Hk). lia.
  - unfold get_item. destruct (find _ _); simpl; intros Hk;
      specialize (H _ Hk); lia.
  - destruct (post_item_ids items body) as [->| ->].
    + intros Hk. specialize (H _ Hk). lia.
    + intros Hk. apply elem_of_app in Hk as [Hk|Hk].
      * specialize (H _ Hk). lia.
      * apply list_elem_of_singleton in Hk as ->.
        destruct (next_id_generateId items) as [[_ ->]|(m & [Hm _] & ->)];
          [lia|]. specialize (H _ Hm). lia.
  - rewrite put_item_ids. intros Hk. specialize (H _ Hk). lia.
  - rewrite delete_item_store. intros Hk. apply ids_filter in Hk as [Hk _].
    specialize (H _ Hk). lia.
Qed.

Lemma run_ids_bound rs items b :
  0 ≤ b → (∀ k, k ∈ ids items → k ≤ b) →
  ∀ k, k ∈ ids (run items rs) → k ≤ b + Z.of_nat (length rs).
Proof.
  revert items b. induction rs as [|r rs IH]; intros items b Hb H k Hk.
  - simpl in *. specialize (H _ Hk). lia.
  - simpl in Hk. apply (IH _ (b + 1)) in Hk.
    + simpl length. lia.
    + lia.
    + by apply handle_ids_bound.
Qed.

(** X23.  Ids grow by at most one per request: after any [n] requests
    since the server started, every id in the store is at most 3 + n. *)
Theorem reachable_ids_bounded rs k :
  k ∈ ids (run initial_items rs) → 1 ≤ k ≤ 3 + Z.of_nat (length rs).
Proof.
  intros Hk. split; [by apply (reachable_ids_positive rs)|].
  apply (run_ids_bound rs initial_items 3); [lia| |done].
  simpl. intros j Hj. rewrite !elem_of_cons, elem_of_nil in Hj. lia.
Qed.

Lemma reachable_ids_bounded_witness :
  1 ≤ 4 ≤ 3 + Z.of_nat (length [Post (Some body_X)]).
Proof.
  apply (reachable_ids_bounded [Post (Some body_X)] 4). simpl. do 3 right. left.
Defined.

Lemma parse_digits_started radix s a :
  is_Some (parse_digits radix s (Some a)).
Proof.
  revert a. induction s as [|c s IH]; intros a; simpl; [eauto|].
  destruct (digit_val radix c); [apply IH|eauto].
Qed.

Lemma parse_digits_first radix c s :
  is_Some (digit_val radix c) →
  is_Some (parse_digits radix (String c s) None).
Proof. intros [d Hd]. simpl. rewrite Hd. apply parse_digits_started. Qed.

Lemma digit_val_is_digit radix c :
  is_digit c = true → is_Some (digit_val radix c).
Proof. unfold is_digit, digit_val. intros ->. eauto. Qed.

(** X24.  A path parameter parses to NaN in exactly two cases: after its
    white space and optional sign there is no digit, or there is 0x or 0X
    with no hexadecimal digit after it. *)
Theorem parseInt_NaN_iff s :
  parseInt s = NaN ↔
  no_leading_integer s = true ∨ hex_prefix_without_digits s = true.
Proof.
  unfold parseInt, no_leading_integer, hex_prefix_without_digits.
  destruct (strip_sign (trim_start s)) as [sign s1].
  change (snd (sign, s1)) with s1. cbv beta iota.
  destruct s1 as [|c r].
  { change (strip_hex_prefix "") with (10, EmptyString). cbv beta iota.
    split; [by left|done]. }
  destruct (is_digit c) eqn:Hc.
  2:{ rewrite strip_hex_prefix_no_digit by done. cbv beta iota.
      rewrite parse_digits_no_digit by done. split; [by left|done]. }
  assert (Hdec : ∀ r', ∃ m, parse_digits 10 (String c r') None = Some m)
    by (intros r'; by apply parse_digits_first, digit_val_is_digit).
  destruct r as [|x r].
  { replace (strip_hex_prefix (String c "")) with (10, String c "")
      by by destruct c as [[] [] [] [] [] [] [] []].
    cbv beta iota. destruct (Hdec EmptyString) as [m ->].
    simpl. split; [done|by intros [|]]. }
  destruct ((code c =? 48) && is_x x) eqn:Hx.
  - assert (E : strip_hex_prefix (String c (String x r)) = (16, r)).
    { apply andb_true_iff in Hx as [H0 Hx]. clear Hdec Hc.
      destruct c as [[] [] [] [] [] [] [] []]; try done.
      destruct x as [[] [] [] [] [] [] [] []]; done. }
    rewrite E. cbv beta iota. destruct r as [|d r].
    { simpl. split; [by right|done]. }
    change (parse_digits 16 (String d r) None)
      with (match digit_val 16 d with
            | Some v => parse_digits 16 r (Some (16 * 0 + v))
            | None => None
            end).
    destruct (digit_val 16 d) as [v|] eqn:Hd.
    + destruct (parse_digits_started 16 r (16 * 0 + v)) as [m ->].
      rewrite bool_decide_true by eauto. simpl.
      split; [done|by intros [|]].
    + rewrite bool_decide_false by (by intros [? ?]). simpl.
      split; [by right|done].
  - assert (E : strip_hex_prefix (String c (String x r)) =
                (10, String c (String x r))).
    { clear Hdec Hc.
      destruct c as [[] [] [] [] [] [] [] []]; try done.
      destruct x as [[] [] [] [] [] [] [] []]; done. }
    rewrite E. cbv beta iota. destruct (Hdec (String x r)) as [m ->].
    simpl. split; [done|by intros [|]].
Qed.
